(** * The section ranker of Challenge 1B

    A shallow embedding of [Challenge_1b/src/section_ranker.py] (class
    [SectionRanker]) and the properties of its scoring and ranking.

    Conventions of the embedding:
    - a Python [str] is a [string]: a sequence of code points below 256,
      with Python's [str.lower] and [str.split] on that range;
    - a Python [int] is a [Z];
    - a Python [float] is idealised as a real number of [R]: the weights,
      the quotients and [math.log] are exact, rounding is not modelled;
    - a [Dict[str, Any]] is a [gmap string value], a [Dict[str, str]] a
      [gmap string string], a [set] of words a [gset string], a [Counter]
      a [gmap string Z];
    - an exception is the left summand of [result];
    - dict objects live in a store and are handled by reference, so that
      [dict.copy] and item assignment act on objects as they do in Python. *)

From Stdlib Require Import Reals Lra ZArith String Ascii List Permutation Sorted.
From stdpp Require Import gmap strings list fin_maps sorting.

Local Open Scope Z_scope.

(** ** Text: [str.lower], [str.split], [len] *)

Module Text.

(** [str.isspace] on the code points below 256: TAB, LF, VT, FF, CR,
    the separators FS, GS, RS, US, SPACE, NEL and NBSP. *)
Definition is_space (c : ascii) : bool :=
  let n := Z.of_nat (nat_of_ascii c) in
  ((9 <=? n) && (n <=? 13)) || ((28 <=? n) && (n <=? 32))
  || (n =? 133) || (n =? 160).

(** [str.lower] on one code point: A-Z, and the Latin-1 capitals
    U+00C0..U+00DE except the multiplication sign U+00D7. *)
Definition lower_char (c : ascii) : ascii :=
  let n := Z.of_nat (nat_of_ascii c) in
  if ((65 <=? n) && (n <=? 90))
     || ((192 <=? n) && (n <=? 222) && negb (n =? 215))
  then ascii_of_nat (Z.to_nat (n + 32))
  else c.

Fixpoint lower (s : string) : string :=
  match s with
  | EmptyString => EmptyString
  | String c s' => String (lower_char c) (lower s')
  end.

(** [split_from cur s]: the words of [s], [cur] being the word read so
    far (empty between words). *)
Fixpoint split_from (cur : string) (s : string) : list string :=
  match s with
  | EmptyString =>
      match cur with EmptyString => [] | _ => [cur] end
  | String c s' =>
      if is_space c then
        match cur with
        | EmptyString => split_from EmptyString s'
        | _ => cur :: split_from EmptyString s'
        end
      else split_from (cur +:+ String c EmptyString) s'
  end.

(** [s.split()] with no argument: maximal runs of non-space characters. *)
Definition split (s : string) : list string := split_from EmptyString s.

(** [len] of a string or a list, a Python [int]. *)
Definition len_str (s : string) : Z := Z.of_nat (String.length s).
Definition len {A} (l : list A) : Z := Z.of_nat (List.length l).

(** [sep.join(ws)]. *)
Fixpoint join (sep : string) (ws : list string) : string :=
  match ws with
  | [] => EmptyString
  | [w] => w
  | w :: ws' => w +:+ sep +:+ join sep ws'
  end.

End Text.

(** ** Values, exceptions *)

Inductive value : Type :=
| VNone
| VInt (z : Z)
| VFloat (r : R)
| VStr (s : string).

(** The exceptions the ranker can raise. [InvalidRef] is not a Python
    exception: it marks a reference outside the store, which no Python
    program can hold. *)
Inductive exn : Type :=
| ZeroDivisionError
| TypeError
| AttributeError
| ValueError
| InvalidRef.

Definition result (A : Type) : Type := (exn + A)%type.

Module Res.
Definition ret {A} (a : A) : result A := inr a.
Definition raise {A} (e : exn) : result A := inl e.
Definition bind {A B} (m : result A) (f : A -> result B) : result B :=
  match m with
  | inl e => inl e
  | inr a => f a
  end.
End Res.

Declare Scope res_scope.
Delimit Scope res_scope with res.
Notation "x <~ m ;; k" := (Res.bind m (fun x => k))
  (at level 100, m at next level, right associativity) : res_scope.

(** ** Python primitives on values *)

Module Py.

(** Truth value of an object: [None], [0], [0.0] and the empty string are false. *)
Definition truthy (v : value) : bool :=
  match v with
  | VNone => false
  | VInt z => negb (z =? 0)
  | VFloat r => if Req_dec_T r 0%R then false else true
  | VStr s => match s with EmptyString => false | _ => true end
  end.

(** [v < n] for an [int] literal [n]. *)
Definition lt_int (v : value) (n : Z) : result bool :=
  match v with
  | VInt z => Res.ret (z <? n)
  | VFloat r => Res.ret (if Rlt_dec r (IZR n) then true else false)
  | VNone | VStr _ => Res.raise TypeError
  end.

(** [v.lower()] and [v.split()]: only a [str] has these methods. *)
Definition str_lower (v : value) : result string :=
  match v with
  | VStr s => Res.ret (Text.lower s)
  | _ => Res.raise AttributeError
  end.

Definition str_split (v : value) : result (list string) :=
  match v with
  | VStr s => Res.ret (Text.split s)
  | _ => Res.raise AttributeError
  end.

(** [a / b] on two [int]s: true division, a [float]. *)
Definition truediv (a b : Z) : result R :=
  if b =? 0 then Res.raise ZeroDivisionError
  else Res.ret (IZR a / IZR b)%R.

(** [math.log(x)]. *)
Definition log (x : R) : result R :=
  if Rlt_dec 0 x then Res.ret (ln x) else Res.raise ValueError.

(** [collections.Counter(words)]. *)
Definition count_word (m : gmap string Z) (w : string) : gmap string Z :=
  <[w := default 0 (m !! w) + 1]> m.

Definition Counter (ws : list string) : gmap string Z :=
  foldl count_word ∅ ws.

End Py.

(** ** The methods of [SectionRanker] *)

Module SectionRanker.

Local Open Scope res_scope.

(** [_compute_position_weight]: earlier sections get a slight bonus. *)
Definition _compute_position_weight (doc_section : gmap string value) : result R :=
  let idx := default (VInt 0) (doc_section !! "position") in
  lt3 <~ Py.lt_int idx 3 ;;
  if (lt3 : bool) then Res.ret 1.0%R
  else
    lt10 <~ Py.lt_int idx 10 ;;
    if (lt10 : bool) then Res.ret 0.8%R else Res.ret 0.6%R.

(** [_extract_context_keywords]: the words of more than two characters
    of the lower-cased text "role task". *)
Definition _extract_context_keywords (role_info task_info : string) : gset string :=
  let combined_text := Text.lower (role_info +:+ " " +:+ task_info) in
  list_to_set (filter (λ word, 2 < Text.len_str word) (Text.split combined_text)).

(** [_calculate_word_frequencies]. *)
Definition _calculate_word_frequencies (text_content : value) : result (gmap string Z) :=
  lowered <~ Py.str_lower text_content ;;
  let word_list := Text.split lowered in
  Res.ret (Py.Counter word_list).

(** [_build_persona_context]. *)
Definition _build_persona_context (user_persona job_details : gmap string string)
  : gmap string string :=
  <["job_context" := default EmptyString (job_details !! "task")]>
    (<["persona_role" := default EmptyString (user_persona !! "role")]> ∅).

(** The brackets of [_assess_content_length] on the word count. *)
Definition length_bracket (word_count : Z) : R :=
  if word_count <? 10 then 0.3%R
  else if word_count <? 50 then 0.8%R
  else if word_count <? 200 then 1.0%R
  else if word_count <? 500 then 0.7%R
  else 0.4%R.

(** [_assess_content_length]. *)
Definition _assess_content_length (text_content : value) : result R :=
  words <~ Py.str_split text_content ;;
  let word_count := Text.len words in
  Res.ret (length_bracket word_count).

(** One turn of the loop of [_sum_keyword_scores]. *)
Definition keyword_step (word_freq : gmap string Z) (total_count : Z)
    (total_score : R) (keyword : string) : result R :=
  match word_freq !! keyword with
  | None => Res.ret total_score
  | Some count =>
      term_frequency <~ Py.truediv count total_count ;;
      quotient <~ Py.truediv 1 (Z.max 1 count) ;;
      inverse_doc_freq <~ Py.log (1 + quotient) ;;
      Res.ret (total_score + term_frequency * inverse_doc_freq)%R
  end.

(** The [for] loop, over the keywords in the order the set yields them. *)
Fixpoint sum_keywords_in_order (word_freq : gmap string Z) (total_count : Z)
    (total_score : R) (keywords : list string) : result R :=
  match keywords with
  | [] => Res.ret total_score
  | keyword :: rest =>
      total_score' <~ keyword_step word_freq total_count total_score keyword ;;
      sum_keywords_in_order word_freq total_count total_score' rest
  end.

(** [_sum_keyword_scores]. Python leaves the iteration order of a set
    open; [elements] fixes one, and [sum_keywords_perm] below shows that
    the order does not matter. *)
Definition _sum_keyword_scores (keywords : gset string) (word_freq : gmap string Z)
    (total_count : Z) : result R :=
  sum_keywords_in_order word_freq total_count 0%R (elements keywords).

(** [_compute_tfidf_relevance]. *)
Definition _compute_tfidf_relevance (text_content : value)
    (context_data : gmap string string) : result R :=
  let role_keywords :=
    _extract_context_keywords
      (default EmptyString (context_data !! "persona_role"))
      (default EmptyString (context_data !! "job_context")) in
  if decide (role_keywords = ∅) then Res.ret 0.5%R
  else
    word_frequencies <~ _calculate_word_frequencies text_content ;;
    lowered <~ Py.str_lower text_content ;;
    let total_words := Text.len (Text.split lowered) in
    relevance_sum <~ _sum_keyword_scores role_keywords word_frequencies total_words ;;
    Res.ret (Rmin relevance_sum 1.0).

(** [_compute_final_score], with the three sub-scorers it calls through
    [self] as parameters. *)
Section Composite.
Variable tfidf_relevance : value -> gmap string string -> result R.
Variable assess_content_length : value -> result R.
Variable position_weight : gmap string value -> result R.

Definition final_score_with (doc_section : gmap string value)
    (context_data : gmap string string) : result R :=
  let section_content := default (VStr EmptyString) (doc_section !! "content") in
  if negb (Py.truthy section_content) then Res.ret 0.0%R
  else
    semantic_score <~ tfidf_relevance section_content context_data ;;
    length_weight <~ assess_content_length section_content ;;
    position_weight <~ position_weight doc_section ;;
    let final_score :=
      (0.6 * semantic_score + 0.3 * length_weight + 0.1 * position_weight)%R in
    Res.ret (Rmin final_score 1.0).
End Composite.

Definition _compute_final_score : gmap string value -> gmap string string -> result R :=
  final_score_with _compute_tfidf_relevance _assess_content_length
    _compute_position_weight.

End SectionRanker.

(** ** The object store *)

(** Dict objects are held by reference: a reference is an index into the
    store, a new object goes to its end. *)
Module Store.

Definition ref : Type := nat.
Abbreviation heap := (list (gmap string value)).

(** A computation that reads and writes the store and may raise. *)
Definition M (A : Type) : Type := heap -> result A * heap.

Definition ret {A} (a : A) : M A := fun h => (inr a, h).
Definition raise {A} (e : exn) : M A := fun h => (inl e, h).
Definition bind {A B} (m : M A) (f : A -> M B) : M B :=
  fun h =>
    match m h with
    | (inl e, h') => (inl e, h')
    | (inr a, h') => f a h'
    end.

(** A computation that does not touch the store. *)
Definition lift {A} (r : result A) : M A := fun h => (r, h).

(** The object behind a reference. *)
Definition deref (x : ref) : M (gmap string value) :=
  fun h =>
    match h !! x with
    | Some d => (inr d, h)
    | None => (inl InvalidRef, h)
    end.

(** [x.copy()]: a new object with the items of [x]. *)
Definition dict_copy (x : ref) : M ref :=
  fun h =>
    match h !! x with
    | Some d => (inr (length h), h ++ [d])
    | None => (inl InvalidRef, h)
    end.

(** [x[k] = v]: assignment in place. *)
Definition setitem (x : ref) (k : string) (v : value) : M unit :=
  fun h =>
    match h !! x with
    | Some d => (inr tt, <[x := <[k := v]> d]> h)
    | None => (inl InvalidRef, h)
    end.

End Store.

Declare Scope store_scope.
Delimit Scope store_scope with store.
Notation "x <~ m ;; k" := (Store.bind m (fun x => k))
  (at level 100, m at next level, right associativity) : store_scope.

(** ** [list.sort(key=..., reverse=True)] *)

Module ListSort.

Section Keyed.
Context {A : Type}.

(** A stable ascending sort of keyed items. The result of a stable
    sort is determined by the keys and the input order, so insertion
    stands for the library's merge sort. *)
Fixpoint insert_by_key (x : R * A) (l : list (R * A)) : list (R * A) :=
  match l with
  | [] => [x]
  | y :: l' =>
      if Rlt_dec (fst y) (fst x) then y :: insert_by_key x l'
      else x :: y :: l'
  end.

Definition stable_sort (l : list (R * A)) : list (R * A) :=
  foldr insert_by_key [] l.

(** [reverse=True]: the list is reversed, sorted ascending and stably,
    and reversed again, which keeps equal keys in input order. *)
Definition sort_reverse (l : list (R * A)) : list (R * A) :=
  rev (stable_sort (rev l)).
End Keyed.

End ListSort.

(** ** [SectionRanker.rank_sections] *)

Module Ranking.

Import SectionRanker.
Local Open Scope store_scope.

(** A number as a sort key; other objects do not compare with numbers. *)
Definition as_number (v : value) : result R :=
  match v with
  | VInt z => Res.ret (IZR z)
  | VFloat r => Res.ret r
  | VNone | VStr _ => Res.raise TypeError
  end.

(** The body of the [for] loop: score the section, copy it, set the two
    score items on the copy. *)
Definition annotate (context_data : gmap string string) (doc_section : Store.ref)
  : Store.M Store.ref :=
  section_items <~ Store.deref doc_section ;;
  relevance_value <~ Store.lift (_compute_final_score section_items context_data) ;;
  updated_section <~ Store.dict_copy doc_section ;;
  _ <~ Store.setitem updated_section "relevance_score" (VFloat relevance_value) ;;
  _ <~ Store.setitem updated_section "final_relevance_score" (VFloat relevance_value) ;;
  Store.ret updated_section.

(** The [for] loop: [ranked_sections] grows by one reference a turn. *)
Fixpoint for_each_section (context_data : gmap string string)
    (ranked_sections : list Store.ref) (doc_sections : list Store.ref)
  : Store.M (list Store.ref) :=
  match doc_sections with
  | [] => Store.ret ranked_sections
  | doc_section :: rest =>
      updated_section <~ annotate context_data doc_section ;;
      for_each_section context_data (ranked_sections ++ [updated_section]) rest
  end.

(** The sort key [lambda x: x.get('relevance_score', 0)], as a number.
    Python compares the keys only when it sorts two items or more; here
    every key is required to be a number, which is the same for
    [rank_sections], whose keys are the floats it has just assigned. *)
Definition sort_key (x : Store.ref) : Store.M R :=
  items <~ Store.deref x ;;
  Store.lift (as_number (default (VInt 0) (items !! "relevance_score"))).

(** The keys of a list, computed once for every item before sorting. *)
Fixpoint keyed (l : list Store.ref) : Store.M (list (R * Store.ref)) :=
  match l with
  | [] => Store.ret []
  | x :: l' =>
      k <~ sort_key x ;;
      kl <~ keyed l' ;;
      Store.ret ((k, x) :: kl)
  end.

(** [l.sort(key=..., reverse=True)]. *)
Definition sort_by_score_reverse (l : list Store.ref) : Store.M (list Store.ref) :=
  kl <~ keyed l ;;
  Store.ret (map snd (ListSort.sort_reverse kl)).

(** [rank_sections]. *)
Definition rank_sections (doc_sections : list Store.ref)
    (user_persona job_details : gmap string string) : Store.M (list Store.ref) :=
  match doc_sections with
  | [] => Store.ret []
  | _ :: _ =>
      let context_data := _build_persona_context user_persona job_details in
      ranked_sections <~ for_each_section context_data [] doc_sections ;;
      sort_by_score_reverse ranked_sections
  end.

(** Running a computation in a store: its outcome and the store it leaves. *)
Definition run {A} (m : Store.M A) (h : Store.heap) : result A * Store.heap := m h.

End Ranking.

(** ** What the specification says, in its own words *)

Module Spec.

(** The number of occurrences of a word among the tokens. *)
Definition occurrences (w : string) (tokens : list string) : Z :=
  Text.len (filter (λ x, x = w) tokens).

(** The contribution of one keyword: [tf * idf] when the keyword occurs in
    the content, nothing otherwise. *)
Definition tfidf_term (tokens : list string) (keyword : string) : R :=
  if decide (keyword ∈ tokens) then
    let count := occurrences keyword tokens in
    let total_words := Text.len tokens in
    (IZR count / IZR total_words * ln (1 + 1 / IZR (Z.max 1 count)))%R
  else 0%R.

(** The sum [S] over the keywords, for the lower-cased content. *)
Definition tfidf_sum (keywords : gset string) (content : string) : R :=
  let tokens := Text.split (Text.lower content) in
  foldr (λ keyword acc, (tfidf_term tokens keyword + acc)%R) 0%R (elements keywords).

(** A text of [n] one-letter words. *)
Definition text_of_words (n : nat) : string :=
  Text.join " " (replicate n "w").

(** A text made of whitespace only. *)
Fixpoint only_whitespace (s : string) : bool :=
  match s with
  | EmptyString => true
  | String c s' => Text.is_space c && only_whitespace s'
  end.

(** A section as the data model has it: [content], when present, is a
    text; [position], when present, is an integer. *)
Definition is_text (o : option value) : Prop :=
  match o with
  | None | Some (VStr _) => True
  | Some _ => False
  end.

Definition is_integer (o : option value) : Prop :=
  match o with
  | None | Some (VInt _) => True
  | Some _ => False
  end.

Definition is_section (d : gmap string value) : Prop :=
  is_text (d !! "content") ∧ is_integer (d !! "position").

(** A ranked section: the items of the section and the two score items. *)
Definition ranked_section (score : R) (d : gmap string value) : gmap string value :=
  <["final_relevance_score" := VFloat score]> (<["relevance_score" := VFloat score]> d).

(** The input of a ranking call: references to sections held in the store. *)
Definition valid_input (h : Store.heap) (doc_sections : list Store.ref) : Prop :=
  Forall (λ x, exists d, h !! x = Some d /\ is_section d) doc_sections.

(** The [relevance_score] item of the object behind a reference. *)
Definition relevance_score (h : Store.heap) (x : Store.ref) : option value :=
  match h !! x with
  | Some d => d !! "relevance_score"
  | None => None
  end.

(** The order of a ranking on (score, input index): higher scores first,
    equal scores in input order. *)
Definition ranked_before (x y : R * nat) : Prop :=
  (fst y < fst x)%R \/ (fst x = fst y /\ (snd x < snd y)%nat).

(** The claim that every item of an input section is found, with the same
    value, in the output record made from it. *)
Definition keeps_every_item : Prop :=
  forall (h h' : Store.heap) (doc_sections out : list Store.ref)
         (user_persona job_details : gmap string string),
    Ranking.run (Ranking.rank_sections doc_sections user_persona job_details) h
    = (inr out, h') ->
    forall (i : nat) (x : Store.ref) (d : gmap string value),
      doc_sections !! i = Some x ->
      h !! x = Some d ->
      exists d' : gmap string value,
        h' !! (length h + i)%nat = Some d'
        /\ forall (k : string) (v : value), d !! k = Some v -> d' !! k = Some v.

(** The sum of the counts of a frequency table, [sum(table.values())]. *)
Definition total_count (table : gmap string Z) : Z :=
  map_fold (λ _ count acc, count + acc) 0 table.

(** A text without any whitespace character. *)
Fixpoint no_space (s : string) : bool :=
  match s with
  | EmptyString => true
  | String c s' => negb (Text.is_space c) && no_space s'
  end.

(** The section at a reference has a text to score: its content is a
    text that is not empty. *)
Definition has_text (d : gmap string value) : Prop :=
  exists content : string,
    d !! "content" = Some (VStr content) /\ content <> EmptyString.

End Spec.

(** * Properties *)

Import SectionRanker.

(** ** Position and length brackets *)

Section Brackets.

Local Open Scope Z_scope.

Lemma position_weight_int (d : gmap string value) (p : Z) :
  d !! "position" = Some (VInt p) ->
  _compute_position_weight d
  = inr (if p <? 3 then 1.0%R else if p <? 10 then 0.8%R else 0.6%R).
Proof.
  intros Hp. unfold _compute_position_weight. rewrite Hp. simpl.
  destruct (p <? 3); simpl; [reflexivity|].
  destruct (p <? 10); reflexivity.
Qed.

Lemma position_weight_absent (d : gmap string value) :
  d !! "position" = None -> _compute_position_weight d = inr 1.0%R.
Proof.
  intros Hp. unfold _compute_position_weight. rewrite Hp. reflexivity.
Qed.

Lemma position_weight_insert (d : gmap string value) (p : Z) :
  _compute_position_weight (<["position" := VInt p]> d)
  = inr (if p <? 3 then 1.0%R else if p <? 10 then 0.8%R else 0.6%R).
Proof. apply position_weight_int. apply lookup_insert_eq. Qed.

(** C9. The position weight is 1.0 below position 3, 0.8 from 3 up to 10
    (excluded) and 0.6 from 10 on; a section without a position is scored
    as position 0, with weight 1.0 and without an exception; and a smaller
    position, everything else being equal, never has a smaller weight. *)
Theorem position_weight_brackets :
  (forall (d : gmap string value) (p : Z),
      d !! "position" = Some (VInt p) ->
      (p < 3 -> _compute_position_weight d = inr 1.0%R)
      /\ (3 <= p < 10 -> _compute_position_weight d = inr 0.8%R)
      /\ (10 <= p -> _compute_position_weight d = inr 0.6%R))
  /\ (forall d : gmap string value,
         d !! "position" = None ->
         _compute_position_weight d = inr 1.0%R
         /\ _compute_position_weight d
            = _compute_position_weight (<["position" := VInt 0]> d))
  /\ (forall (d : gmap string value) (p p' : Z),
         p <= p' ->
         exists w w' : R,
           _compute_position_weight (<["position" := VInt p]> d) = inr w
           /\ _compute_position_weight (<["position" := VInt p']> d) = inr w'
           /\ (w' <= w)%R).
Proof.
  split; [|split].
  - intros d p Hp. rewrite (position_weight_int d p Hp).
    repeat split; intros Hr.
    + destruct (Z.ltb_spec p 3); [reflexivity | lia].
    + destruct (Z.ltb_spec p 3); [lia|].
      destruct (Z.ltb_spec p 10); [reflexivity | lia].
    + destruct (Z.ltb_spec p 3); [lia|].
      destruct (Z.ltb_spec p 10); [lia | reflexivity].
  - intros d Hp. rewrite position_weight_insert.
    rewrite (position_weight_absent d Hp). split; reflexivity.
  - intros d p p' Hle. rewrite !position_weight_insert.
    eexists _, _. split; [reflexivity|]. split; [reflexivity|].
    destruct (Z.ltb_spec p 3), (Z.ltb_spec p' 3),
      (Z.ltb_spec p 10), (Z.ltb_spec p' 10); try lia; lra.
Qed.

(** At positions 2, 3, 9, 10, and 0 against no position at all. *)
Lemma position_weight_brackets_witness :
  _compute_position_weight {["position" := VInt 2]} = inr 1.0%R
  /\ _compute_position_weight {["position" := VInt 3]} = inr 0.8%R
  /\ _compute_position_weight {["position" := VInt 9]} = inr 0.8%R
  /\ _compute_position_weight {["position" := VInt 10]} = inr 0.6%R
  /\ _compute_position_weight ∅ = inr 1.0%R.
Proof.
  destruct position_weight_brackets as [Hint [Habs _]].
  repeat apply conj.
  - apply (Hint {["position" := VInt 2]} 2); [reflexivity | lia].
  - apply (Hint {["position" := VInt 3]} 3); [reflexivity | lia].
  - apply (Hint {["position" := VInt 9]} 9); [reflexivity | lia].
  - apply (Hint {["position" := VInt 10]} 10); [reflexivity | lia].
  - apply (Habs ∅). reflexivity.
Defined.

Lemma length_bracket_cases (n : Z) :
  (n < 10 -> length_bracket n = 0.3%R)
  /\ (10 <= n < 50 -> length_bracket n = 0.8%R)
  /\ (50 <= n < 200 -> length_bracket n = 1.0%R)
  /\ (200 <= n < 500 -> length_bracket n = 0.7%R)
  /\ (500 <= n -> length_bracket n = 0.4%R).
Proof.
  unfold length_bracket.
  destruct (Z.ltb_spec n 10), (Z.ltb_spec n 50),
    (Z.ltb_spec n 200), (Z.ltb_spec n 500);
    repeat split; intros; try lia; reflexivity.
Qed.

(** C8. The length weight of a content of [n] whitespace-separated tokens
    is 0.3 for n < 10, 0.8 for 10 <= n < 50, 1.0 for 50 <= n < 200, 0.7 for
    200 <= n < 500 and 0.4 for n >= 500; so 9, 10, 49, 50, 199, 200, 499
    and 500 tokens weigh 0.3, 0.8, 0.8, 1.0, 1.0, 0.7, 0.7 and 0.4. *)
Theorem content_length_brackets (content : string) :
  let n := Text.len (Text.split content) in
  let weight := _assess_content_length (VStr content) in
  ((n < 10 -> weight = inr 0.3%R)
   /\ (10 <= n < 50 -> weight = inr 0.8%R)
   /\ (50 <= n < 200 -> weight = inr 1.0%R)
   /\ (200 <= n < 500 -> weight = inr 0.7%R)
   /\ (500 <= n -> weight = inr 0.4%R))
  /\ Forall (λ '(tokens, w), n = tokens -> weight = inr w)
       [(9, 0.3%R); (10, 0.8%R); (49, 0.8%R); (50, 1.0%R);
        (199, 1.0%R); (200, 0.7%R); (499, 0.7%R); (500, 0.4%R)].
Proof.
  intros n weight.
  assert (Hw : weight = inr (length_bracket n)) by reflexivity.
  destruct (length_bracket_cases n) as (H1 & H2 & H3 & H4 & H5).
  split.
  - rewrite Hw. repeat split; intros Hn; f_equal; auto.
  - rewrite Hw. repeat constructor; intros Hn; f_equal;
      first [apply H1; lia | apply H2; lia | apply H3; lia
            | apply H4; lia | apply H5; lia].
Qed.

(** Contents of exactly 9, 10, 49, 50, 199, 200, 499 and 500 tokens. *)
Lemma content_length_brackets_witness :
  _assess_content_length (VStr (Spec.text_of_words 9)) = inr 0.3%R
  /\ _assess_content_length (VStr (Spec.text_of_words 10)) = inr 0.8%R
  /\ _assess_content_length (VStr (Spec.text_of_words 49)) = inr 0.8%R
  /\ _assess_content_length (VStr (Spec.text_of_words 50)) = inr 1.0%R
  /\ _assess_content_length (VStr (Spec.text_of_words 199)) = inr 1.0%R
  /\ _assess_content_length (VStr (Spec.text_of_words 200)) = inr 0.7%R
  /\ _assess_content_length (VStr (Spec.text_of_words 499)) = inr 0.7%R
  /\ _assess_content_length (VStr (Spec.text_of_words 500)) = inr 0.4%R.
Proof.
  repeat apply conj.
  - apply (content_length_brackets (Spec.text_of_words 9)). vm_compute. reflexivity.
  - apply (content_length_brackets (Spec.text_of_words 10)). vm_compute. split; [discriminate | reflexivity].
  - apply (content_length_brackets (Spec.text_of_words 49)). vm_compute. split; [discriminate | reflexivity].
  - apply (content_length_brackets (Spec.text_of_words 50)). vm_compute. split; [discriminate | reflexivity].
  - apply (content_length_brackets (Spec.text_of_words 199)). vm_compute. split; [discriminate | reflexivity].
  - apply (content_length_brackets (Spec.text_of_words 200)). vm_compute. split; [discriminate | reflexivity].
  - apply (content_length_brackets (Spec.text_of_words 499)). vm_compute. split; [discriminate | reflexivity].
  - apply (content_length_brackets (Spec.text_of_words 500)). vm_compute. discriminate.
Defined.

End Brackets.

(** ** The short cuts: no content, no keywords, no sections *)

Section ShortCuts.

(** Without content the score is 0.0, whatever the sub-scorers are. *)
Lemma final_score_with_no_content
    (tfidf_relevance : value -> gmap string string -> result R)
    (assess_content_length : value -> result R)
    (position_weight : gmap string value -> result R)
    (doc_section : gmap string value) (context_data : gmap string string) :
  doc_section !! "content" = None \/ doc_section !! "content" = Some (VStr "") ->
  final_score_with tfidf_relevance assess_content_length position_weight
    doc_section context_data = inr 0.0%R.
Proof.
  intros Hc. unfold final_score_with. destruct Hc as [-> | ->]; reflexivity.
Qed.

(** C5. When the content of a section is absent or the empty text, the
    final score is exactly 0.0, whatever the persona, the job and the
    position, and whatever the three sub-scorers are: they are not called,
    since even sub-scorers that raise leave the result at 0.0. *)
Theorem final_score_no_content
    (tfidf_relevance : value -> gmap string string -> result R)
    (assess_content_length : value -> result R)
    (position_weight : gmap string value -> result R)
    (doc_section : gmap string value) (context_data : gmap string string) :
  doc_section !! "content" = None \/ doc_section !! "content" = Some (VStr "") ->
  final_score_with tfidf_relevance assess_content_length position_weight
    doc_section context_data = inr 0.0%R
  /\ _compute_final_score doc_section context_data = inr 0.0%R.
Proof.
  intros Hc. split.
  - apply final_score_with_no_content. exact Hc.
  - apply (final_score_with_no_content _compute_tfidf_relevance
             _assess_content_length _compute_position_weight). exact Hc.
Qed.

(** A section whose only item is an empty content, at position 7, with
    sub-scorers that raise. *)
Lemma final_score_no_content_witness :
  final_score_with (fun _ _ => inl TypeError) (fun _ => inl TypeError)
    (fun _ => inl TypeError)
    (<["position" := VInt 7]> {["content" := VStr ""]})
    {["persona_role" := "analyst"]} = inr 0.0%R
  /\ _compute_final_score ∅ {["persona_role" := "analyst"]} = inr 0.0%R.
Proof.
  split.
  - apply (final_score_no_content _ _ _
             (<["position" := VInt 7]> {["content" := VStr ""]})).
    right. reflexivity.
  - apply (final_score_no_content (fun _ _ => inl TypeError)
             (fun _ => inl TypeError) (fun _ => inl TypeError) ∅).
    left. reflexivity.
Defined.

Lemma keywords_of_empty_context (user_persona job_details : gmap string string) :
  user_persona !! "role" = None \/ user_persona !! "role" = Some "" ->
  job_details !! "task" = None \/ job_details !! "task" = Some "" ->
  let context_data := _build_persona_context user_persona job_details in
  _extract_context_keywords
    (default EmptyString (context_data !! "persona_role"))
    (default EmptyString (context_data !! "job_context")) = ∅.
Proof.
  intros Hr Ht. unfold _build_persona_context. simpl.
  rewrite lookup_insert_ne by discriminate.
  rewrite !lookup_insert_eq. simpl.
  destruct Hr as [-> | ->], Ht as [-> | ->]; reflexivity.
Qed.

(** C6. When the keyword set of the context is empty, the TF-IDF-style
    relevance is exactly 0.5 for every content; this is the case when the
    role of the persona and the task of the job are both empty or absent. *)
Theorem tfidf_no_keywords :
  (forall (text_content : value) (context_data : gmap string string),
      _extract_context_keywords
        (default EmptyString (context_data !! "persona_role"))
        (default EmptyString (context_data !! "job_context")) = ∅ ->
      _compute_tfidf_relevance text_content context_data = inr 0.5%R)
  /\ (forall (text_content : value) (user_persona job_details : gmap string string),
         user_persona !! "role" = None \/ user_persona !! "role" = Some "" ->
         job_details !! "task" = None \/ job_details !! "task" = Some "" ->
         _compute_tfidf_relevance text_content
           (_build_persona_context user_persona job_details) = inr 0.5%R).
Proof.
  assert (Hgen : forall text_content context_data,
             _extract_context_keywords
               (default EmptyString (context_data !! "persona_role"))
               (default EmptyString (context_data !! "job_context")) = ∅ ->
             _compute_tfidf_relevance text_content context_data = inr 0.5%R).
  { intros v ctx Hk. unfold _compute_tfidf_relevance.
    destruct (decide _) as [_ | Hne]; [reflexivity | contradiction]. }
  split; [exact Hgen|].
  intros v persona job Hr Ht. apply Hgen.
  apply keywords_of_empty_context; assumption.
Qed.

(** A context of short words only, and a persona and a job without text. *)
Lemma tfidf_no_keywords_witness :
  _compute_tfidf_relevance (VStr "math is fun")
    (<["job_context" := "do it"]> {["persona_role" := "an MD"]}) = inr 0.5%R
  /\ _compute_tfidf_relevance (VStr "math is fun")
       (_build_persona_context {["role" := ""]} ∅) = inr 0.5%R.
Proof.
  destruct tfidf_no_keywords as [Hk He]. split.
  - apply Hk. vm_compute. reflexivity.
  - apply He; [right | left]; reflexivity.
Defined.

(** C4. With no section to rank, [rank_sections] returns the empty list
    for every persona and job, raises nothing and leaves the store as it
    was. *)
Theorem rank_sections_empty
    (user_persona job_details : gmap string string) (h : Store.heap) :
  Ranking.run (Ranking.rank_sections [] user_persona job_details) h = (inr [], h).
Proof. reflexivity. Qed.

End ShortCuts.

(** ** Word frequencies *)

Section Frequencies.

Local Open Scope Z_scope.

Lemma occurrences_nil (w : string) : Spec.occurrences w [] = 0.
Proof. reflexivity. Qed.

Lemma occurrences_cons (w x : string) (ws : list string) :
  Spec.occurrences w (x :: ws)
  = (if decide (x = w) then 1 else 0) + Spec.occurrences w ws.
Proof.
  unfold Spec.occurrences, Text.len. rewrite filter_cons.
  destruct (decide (x = w)); simpl length; lia.
Qed.

Lemma occurrences_nonneg (w : string) (ws : list string) :
  0 <= Spec.occurrences w ws.
Proof. unfold Spec.occurrences, Text.len. lia. Qed.

Lemma occurrences_pos (w : string) (ws : list string) :
  w ∈ ws -> 1 <= Spec.occurrences w ws.
Proof.
  induction ws as [|x ws IH]; intros Hin.
  - inversion Hin.
  - rewrite occurrences_cons. pose proof (occurrences_nonneg w ws).
    destruct (decide (x = w)) as [_ | Hne]; [lia|].
    apply elem_of_cons in Hin as [-> | Hin]; [contradiction|].
    specialize (IH Hin). lia.
Qed.

Lemma occurrences_absent (w : string) (ws : list string) :
  w ∉ ws -> Spec.occurrences w ws = 0.
Proof.
  induction ws as [|x ws IH]; intros Hnin; [reflexivity|].
  rewrite occurrences_cons. apply not_elem_of_cons in Hnin as [Hne Hnin].
  destruct (decide (x = w)) as [-> | _]; [contradiction|].
  rewrite IH by assumption. reflexivity.
Qed.

(** Counting into a table that already holds some counts. *)
Lemma foldl_count_word_lookup (ws : list string) (m : gmap string Z) (w : string) :
  foldl Py.count_word m ws !! w
  = match m !! w with
    | Some c => Some (c + Spec.occurrences w ws)
    | None => if decide (w ∈ ws) then Some (Spec.occurrences w ws) else None
    end.
Proof.
  revert m. induction ws as [|x ws IH]; intros m.
  - simpl. rewrite occurrences_nil. destruct (m !! w) as [c|].
    + f_equal. lia.
    + destruct (decide (w ∈ [])) as [Hin | _]; [inversion Hin | reflexivity].
  - simpl. rewrite IH. rewrite occurrences_cons. unfold Py.count_word.
    destruct (decide (x = w)) as [-> | Hne].
    + rewrite lookup_insert_eq. destruct (m !! w) as [c|]; simpl.
      * f_equal. lia.
      * destruct (decide (w ∈ w :: ws)) as [_ | Hnin]; [f_equal; lia|].
        exfalso. apply Hnin. left.
    + rewrite lookup_insert_ne by assumption.
      destruct (m !! w) as [c|]; [f_equal; lia|].
      destruct (decide (w ∈ ws)) as [Hin | Hnin].
      * destruct (decide (w ∈ x :: ws)) as [_ | Hnin']; [f_equal; lia|].
        exfalso. apply Hnin'. right. assumption.
      * destruct (decide (w ∈ x :: ws)) as [Hin' | _]; [|reflexivity].
        apply elem_of_cons in Hin' as [-> | Hin']; contradiction.
Qed.

(** The counter of a list of words holds, for every word of the list, the
    number of its occurrences, and nothing else. *)
Lemma Counter_lookup (ws : list string) (w : string) :
  Py.Counter ws !! w
  = if decide (w ∈ ws) then Some (Spec.occurrences w ws) else None.
Proof.
  unfold Py.Counter. rewrite foldl_count_word_lookup. rewrite lookup_empty.
  reflexivity.
Qed.

Lemma Counter_present (ws : list string) (w : string) (c : Z) :
  Py.Counter ws !! w = Some c ->
  w ∈ ws /\ c = Spec.occurrences w ws /\ 1 <= c /\ 1 <= Text.len ws.
Proof.
  rewrite Counter_lookup. destruct (decide (w ∈ ws)) as [Hin | _]; [|discriminate].
  intros [= <-]. split; [assumption|]. split; [reflexivity|].
  split; [apply occurrences_pos; assumption|].
  unfold Text.len. destruct ws; [inversion Hin | simpl length; lia].
Qed.

End Frequencies.

(** ** The keyword sum *)

Section KeywordSum.

Local Open Scope R_scope.

Lemma lower_char_space (c : ascii) :
  Text.is_space (Text.lower_char c) = Text.is_space c.
Proof. destruct c as [[] [] [] [] [] [] [] []]; reflexivity. Qed.

Lemma split_whitespace (s : string) :
  Spec.only_whitespace s = true -> Text.split (Text.lower s) = [].
Proof.
  unfold Text.split. induction s as [|c s IH]; intros Hs; [reflexivity|].
  simpl in Hs. apply andb_true_iff in Hs as [Hc Hs].
  simpl. rewrite lower_char_space, Hc. apply IH. assumption.
Qed.

Lemma idf_argument_pos (count : Z) : 0 < 1 + 1 / IZR (Z.max 1 count).
Proof.
  assert (H1 : 1 <= IZR (Z.max 1 count)) by (apply IZR_le; lia).
  assert (H2 : 0 < 1 / IZR (Z.max 1 count)).
  { apply Rdiv_lt_0_compat; lra. }
  lra.
Qed.

Lemma idf_nonneg (count : Z) : 0 <= ln (1 + 1 / IZR (Z.max 1 count)).
Proof.
  assert (H1 : 1 <= IZR (Z.max 1 count)) by (apply IZR_le; lia).
  assert (H2 : 0 < 1 / IZR (Z.max 1 count)).
  { apply Rdiv_lt_0_compat; lra. }
  rewrite <- ln_1. left. apply ln_increasing; lra.
Qed.

(** A keyword that the frequency table does not hold costs no division:
    the running total is returned as it is, even for [total_count = 0]. *)
Lemma keyword_step_absent (word_freq : gmap string Z) (total_count : Z)
    (total_score : R) (keyword : string) :
  word_freq !! keyword = None ->
  keyword_step word_freq total_count total_score keyword = inr total_score.
Proof. intros Hk. unfold keyword_step. rewrite Hk. reflexivity. Qed.

(** A keyword that the table holds with a count [c], for a non-zero total. *)
Lemma keyword_step_present (word_freq : gmap string Z) (total_count : Z)
    (total_score : R) (keyword : string) (count : Z) :
  word_freq !! keyword = Some count ->
  total_count <> 0%Z ->
  keyword_step word_freq total_count total_score keyword
  = inr (total_score
         + IZR count / IZR total_count * ln (1 + 1 / IZR (Z.max 1 count))).
Proof.
  intros Hk Ht. unfold keyword_step. rewrite Hk. unfold Py.truediv.
  destruct (Z.eqb_spec total_count 0) as [? | _]; [contradiction|].
  destruct (Z.eqb_spec (Z.max 1 count) 0) as [? | _]; [lia|].
  simpl. unfold Py.log.
  destruct (Rlt_dec 0 (1 + 1 / IZR (Z.max 1 count))) as [_ | Hn].
  - reflexivity.
  - exfalso. apply Hn. apply idf_argument_pos.
Qed.

(** On the table and the token count of one and the same token list, a
    turn of the loop adds the term of the specification. *)
Lemma keyword_step_tokens (tokens : list string) (total_score : R) (keyword : string) :
  keyword_step (Py.Counter tokens) (Text.len tokens) total_score keyword
  = inr (total_score + Spec.tfidf_term tokens keyword).
Proof.
  unfold Spec.tfidf_term.
  destruct (Py.Counter tokens !! keyword) as [c|] eqn:Hc.
  - destruct (Counter_present _ _ _ Hc) as (Hin & -> & Hpos & Hlen).
    rewrite (keyword_step_present _ _ _ _ _ Hc) by lia.
    destruct (decide (keyword ∈ tokens)); [reflexivity | contradiction].
  - rewrite (keyword_step_absent _ _ _ _ Hc).
    rewrite Counter_lookup in Hc.
    destruct (decide (keyword ∈ tokens)); [discriminate|].
    f_equal. lra.
Qed.

Lemma sum_keywords_tokens (tokens : list string) (keywords : list string)
    (total_score : R) :
  sum_keywords_in_order (Py.Counter tokens) (Text.len tokens) total_score keywords
  = inr (total_score
         + foldr (λ keyword acc, Spec.tfidf_term tokens keyword + acc) 0 keywords).
Proof.
  revert total_score. induction keywords as [|k ks IH]; intros acc; simpl.
  - f_equal. lra.
  - rewrite keyword_step_tokens. simpl. rewrite IH. f_equal. lra.
Qed.

Lemma tfidf_term_nonneg (tokens : list string) (keyword : string) :
  0 <= Spec.tfidf_term tokens keyword.
Proof.
  unfold Spec.tfidf_term. destruct (decide (keyword ∈ tokens)) as [Hin|]; [|lra].
  apply Rmult_le_pos; [|apply idf_nonneg].
  assert (0 <= IZR (Spec.occurrences keyword tokens))
    by (apply IZR_le, occurrences_nonneg).
  assert (0 < IZR (Text.len tokens)).
  { apply IZR_lt. unfold Text.len. destruct tokens; [inversion Hin | simpl length; lia]. }
  apply Rmult_le_pos; [assumption|]. left. apply Rinv_0_lt_compat. assumption.
Qed.

Lemma tfidf_terms_nonneg (tokens keywords : list string) :
  0 <= foldr (λ keyword acc, Spec.tfidf_term tokens keyword + acc) 0 keywords.
Proof.
  induction keywords as [|k ks IH]; simpl; [lra|].
  pose proof (tfidf_term_nonneg tokens k). lra.
Qed.

Lemma tfidf_terms_perm (tokens l l' : list string) :
  Permutation l l' ->
  foldr (λ keyword acc, Spec.tfidf_term tokens keyword + acc) 0 l
  = foldr (λ keyword acc, Spec.tfidf_term tokens keyword + acc) 0 l'.
Proof.
  induction 1 as [|x l l' _ IH|x y l|l l' l'' _ IH1 _ IH2]; simpl.
  - reflexivity.
  - rewrite IH. reflexivity.
  - lra.
  - rewrite IH1. exact IH2.
Qed.

(** The order in which the keywords are visited does not matter. *)
Lemma sum_keywords_perm (tokens l l' : list string) (total_score : R) :
  Permutation l l' ->
  sum_keywords_in_order (Py.Counter tokens) (Text.len tokens) total_score l
  = sum_keywords_in_order (Py.Counter tokens) (Text.len tokens) total_score l'.
Proof.
  intros Hp. rewrite !sum_keywords_tokens.
  rewrite (tfidf_terms_perm tokens l l' Hp). reflexivity.
Qed.

Lemma sum_keyword_scores_content (keywords : gset string) (content : string) :
  let tokens := Text.split (Text.lower content) in
  _sum_keyword_scores keywords (Py.Counter tokens) (Text.len tokens)
  = inr (Spec.tfidf_sum keywords content).
Proof.
  intros tokens. unfold _sum_keyword_scores, Spec.tfidf_sum.
  rewrite sum_keywords_tokens. fold tokens. f_equal. lra.
Qed.

Lemma tfidf_sum_nonneg (keywords : gset string) (content : string) :
  0 <= Spec.tfidf_sum keywords content.
Proof. apply tfidf_terms_nonneg. Qed.

(** The relevance of a text, for a context with keywords. *)
Lemma tfidf_relevance_text (content : string) (context_data : gmap string string) :
  let keywords :=
    _extract_context_keywords
      (default EmptyString (context_data !! "persona_role"))
      (default EmptyString (context_data !! "job_context")) in
  _compute_tfidf_relevance (VStr content) context_data
  = inr (if decide (keywords = ∅) then 0.5
         else Rmin (Spec.tfidf_sum keywords content) 1.0).
Proof.
  intros keywords. unfold _compute_tfidf_relevance. fold keywords.
  destruct (decide (keywords = ∅)); [reflexivity|].
  simpl. rewrite sum_keyword_scores_content. reflexivity.
Qed.

End KeywordSum.

(** ** The relevance formula and the absence of division by zero *)

Section Relevance.

Local Open Scope R_scope.

(** C7. For a content text and a context whose keyword set is not empty,
    the TF-IDF-style relevance is min(1.0, S), S being the sum over the
    keywords that occur among the tokens of the lower-cased content of
    (count / total_words) * ln(1 + 1 / max(1, count)); the loop computes S
    for every keyword set, and a keyword that does not occur among the
    tokens leaves the running total as it is. *)
Theorem tfidf_relevance_formula (content : string) (context_data : gmap string string) :
  let keywords :=
    _extract_context_keywords
      (default EmptyString (context_data !! "persona_role"))
      (default EmptyString (context_data !! "job_context")) in
  let tokens := Text.split (Text.lower content) in
  keywords <> ∅ ->
  _compute_tfidf_relevance (VStr content) context_data
  = inr (Rmin 1.0 (Spec.tfidf_sum keywords content))
  /\ (forall any_keywords : gset string,
         _sum_keyword_scores any_keywords (Py.Counter tokens) (Text.len tokens)
         = inr (Spec.tfidf_sum any_keywords content))
  /\ (forall (keyword : string) (total_score : R),
         keyword ∉ tokens ->
         keyword_step (Py.Counter tokens) (Text.len tokens) total_score keyword
         = inr total_score).
Proof.
  intros keywords tokens Hne. split; [|split].
  - rewrite tfidf_relevance_text. fold keywords.
    destruct (decide (keywords = ∅)); [contradiction|].
    rewrite Rmin_comm. reflexivity.
  - intros ks. apply sum_keyword_scores_content.
  - intros k acc Hk. apply keyword_step_absent.
    rewrite Counter_lookup. destruct (decide (k ∈ tokens)); [contradiction | reflexivity].
Qed.

(** The content and the context of the worked example of the specification. *)
Lemma tfidf_relevance_formula_witness :
  let content := "math is fun and math is useful" in
  let context_data : gmap string string :=
    <["job_context" := "learn math"]> {["persona_role" := "Student"]} in
  let keywords :=
    _extract_context_keywords
      (default EmptyString (context_data !! "persona_role"))
      (default EmptyString (context_data !! "job_context")) in
  keywords <> ∅
  /\ _compute_tfidf_relevance (VStr content) context_data
     = inr (Rmin 1.0 (Spec.tfidf_sum keywords content)).
Proof.
  intros content context_data keywords.
  assert (Hne : keywords <> ∅).
  { intros Hempty.
    apply (f_equal (fun ks : gset string => bool_decide ("math" ∈ ks))) in Hempty.
    vm_compute in Hempty. discriminate Hempty. }
  split; [exact Hne|].
  exact (proj1 (tfidf_relevance_formula content context_data Hne)).
Defined.

(** The worked example: of the keywords "student", "learn" and "math"
    only "math" occurs, twice among the seven tokens. *)
Example tfidf_relevance_worked :
  _compute_tfidf_relevance (VStr "math is fun and math is useful")
    (_build_persona_context {["role" := "Student"]} {["task" := "learn math"]})
  = inr (Rmin (2 / 7 * ln (1 + 1 / 2)) 1.0).
Proof.
  rewrite tfidf_relevance_text.
  match goal with |- context [decide (?ks = ∅)] =>
    replace ks with ({["student"; "math"; "learn"]} : gset string)
      by (vm_compute; reflexivity)
  end.
  rewrite decide_False
    by (apply (bool_decide_eq_false_1 _); vm_compute; reflexivity).
  unfold Spec.tfidf_sum.
  replace (elements ({["student"; "math"; "learn"]} : gset string))
    with ["student"; "math"; "learn"] by (vm_compute; reflexivity).
  replace (Text.split (Text.lower "math is fun and math is useful"))
    with ["math"; "is"; "fun"; "and"; "math"; "is"; "useful"] by reflexivity.
  simpl foldr. unfold Spec.tfidf_term.
  rewrite (decide_False (P := "student" ∈ _))
    by (apply (bool_decide_eq_false_1 _); vm_compute; reflexivity).
  rewrite (decide_False (P := "learn" ∈ _))
    by (apply (bool_decide_eq_false_1 _); vm_compute; reflexivity).
  rewrite (decide_True (P := "math" ∈ _))
    by (apply (bool_decide_eq_true_1 _); vm_compute; reflexivity).
  replace (Spec.occurrences "math" _) with 2%Z by (vm_compute; reflexivity).
  replace (Text.len _) with 7%Z by (vm_compute; reflexivity).
  change (Z.max 1 2) with 2%Z. f_equal. f_equal. lra.
Qed.

(** The division by the total does fail when a keyword is in the table
    and the total is zero: the guard of the loop is what excludes it. *)
Example keyword_step_zero_total :
  keyword_step {["math" := 1%Z]} 0 0 "math" = inl ZeroDivisionError.
Proof. reflexivity. Qed.

Lemma tfidf_sum_whitespace (keywords : gset string) (content : string) :
  Spec.only_whitespace content = true ->
  _sum_keyword_scores keywords
    (Py.Counter (Text.split (Text.lower content)))
    (Text.len (Text.split (Text.lower content))) = inr 0.
Proof.
  intros Hw. rewrite (split_whitespace content Hw).
  unfold _sum_keyword_scores. generalize (elements keywords) as ks.
  induction ks as [|k ks IH]; [reflexivity|].
  simpl. rewrite keyword_step_absent by apply lookup_empty. exact IH.
Qed.

(** C10. The keyword sum never divides by zero. On the frequency table
    and the token count of a content, the sum returns a number for every
    keyword set, and so does the relevance for every context; a keyword
    outside the table costs no division, whatever the total; a keyword in
    the table has a count of at least 1 and makes the total at least 1.
    A content of whitespace only has no token: its keyword sum is 0 and
    its relevance is computed without an exception. *)
Theorem keyword_sum_no_zero_division :
  (forall (content : string) (keywords : gset string),
      let tokens := Text.split (Text.lower content) in
      exists s : R,
        _sum_keyword_scores keywords (Py.Counter tokens) (Text.len tokens) = inr s)
  /\ (forall (content : string) (context_data : gmap string string),
         exists r : R, _compute_tfidf_relevance (VStr content) context_data = inr r)
  /\ (forall (word_freq : gmap string Z) (total_count : Z) (total_score : R)
             (keyword : string),
         word_freq !! keyword = None ->
         keyword_step word_freq total_count total_score keyword = inr total_score)
  /\ (forall (content keyword : string) (count : Z),
         let tokens := Text.split (Text.lower content) in
         Py.Counter tokens !! keyword = Some count ->
         (1 <= count)%Z /\ (1 <= Text.len tokens)%Z)
  /\ (forall (content : string) (keywords : gset string)
             (context_data : gmap string string),
         content <> EmptyString ->
         Spec.only_whitespace content = true ->
         let tokens := Text.split (Text.lower content) in
         Text.len tokens = 0%Z
         /\ _sum_keyword_scores keywords (Py.Counter tokens) (Text.len tokens) = inr 0
         /\ exists r : R,
             _compute_tfidf_relevance (VStr content) context_data = inr r).
Proof.
  repeat apply conj.
  - intros content keywords tokens. eexists. apply sum_keyword_scores_content.
  - intros content ctx. eexists. apply tfidf_relevance_text.
  - apply keyword_step_absent.
  - intros content keyword count tokens Hc.
    destruct (Counter_present _ _ _ Hc) as (_ & _ & H1 & H2). split; assumption.
  - intros content keywords ctx _ Hw tokens. repeat apply conj.
    + unfold tokens. rewrite (split_whitespace content Hw). reflexivity.
    + apply tfidf_sum_whitespace. assumption.
    + eexists. apply tfidf_relevance_text.
Qed.

(** A content of two spaces and a tab, against the keywords of a student
    who learns math. *)
Lemma keyword_sum_no_zero_division_witness :
  let content := String " " (String " " (String "009" EmptyString)) in
  let tokens := Text.split (Text.lower content) in
  Text.len tokens = 0%Z
  /\ _sum_keyword_scores (_extract_context_keywords "Student" "learn math")
       (Py.Counter tokens) (Text.len tokens) = inr 0
  /\ exists r : R,
      _compute_tfidf_relevance (VStr content)
        (<["job_context" := "learn math"]> {["persona_role" := "Student"]}) = inr r.
Proof.
  intros content tokens.
  destruct keyword_sum_no_zero_division as (_ & _ & _ & _ & Hw).
  apply (Hw content); [discriminate | reflexivity].
Defined.

End Relevance.

(** ** The composite score *)

Section CompositeScore.

Local Open Scope R_scope.

Lemma tfidf_relevance_range (content : string) (context_data : gmap string string) :
  exists semantic : R,
    _compute_tfidf_relevance (VStr content) context_data = inr semantic
    /\ 0 <= semantic <= 1.
Proof.
  rewrite tfidf_relevance_text. eexists. split; [reflexivity|].
  destruct (decide _) as [_ | _]; [lra|].
  pose proof (tfidf_sum_nonneg
                (_extract_context_keywords
                   (default EmptyString (context_data !! "persona_role"))
                   (default EmptyString (context_data !! "job_context")))
                content) as Hs.
  unfold Rmin. destruct (Rle_dec _ _); lra.
Qed.

Lemma length_bracket_range (n : Z) : 0.3 <= length_bracket n <= 1.
Proof.
  unfold length_bracket.
  destruct (n <? 10)%Z; [lra|]. destruct (n <? 50)%Z; [lra|].
  destruct (n <? 200)%Z; [lra|]. destruct (n <? 500)%Z; lra.
Qed.

Lemma position_weight_range (doc_section : gmap string value) :
  Spec.is_integer (doc_section !! "position") ->
  exists position : R,
    _compute_position_weight doc_section = inr position
    /\ 0.6 <= position <= 1.
Proof.
  intros Hp. destruct (doc_section !! "position") as [v|] eqn:Hv.
  - destruct v as [|p| |]; try contradiction.
    rewrite (position_weight_int _ _ Hv). eexists. split; [reflexivity|].
    destruct (p <? 3)%Z; [lra|]. destruct (p <? 10)%Z; lra.
  - rewrite (position_weight_absent _ Hv). eexists. split; [reflexivity|]. lra.
Qed.

Lemma truthy_text (content : string) :
  content <> EmptyString -> Py.truthy (VStr content) = true.
Proof. destruct content; [contradiction | reflexivity]. Qed.

(** The final score of a section with a text to score. *)
Lemma final_score_of_text (doc_section : gmap string value)
    (context_data : gmap string string) (content : string) :
  doc_section !! "content" = Some (VStr content) ->
  content <> EmptyString ->
  Spec.is_integer (doc_section !! "position") ->
  exists semantic length position : R,
    _compute_tfidf_relevance (VStr content) context_data = inr semantic
    /\ _assess_content_length (VStr content) = inr length
    /\ _compute_position_weight doc_section = inr position
    /\ _compute_final_score doc_section context_data
       = inr (Rmin (0.6 * semantic + 0.3 * length + 0.1 * position) 1.0)
    /\ 0 <= Rmin (0.6 * semantic + 0.3 * length + 0.1 * position) 1.0 <= 1.
Proof.
  intros Hc Hne Hp.
  destruct (tfidf_relevance_range content context_data) as (sem & Hsem & Hsr).
  destruct (position_weight_range doc_section Hp) as (pos & Hpos & Hpr).
  pose proof (length_bracket_range (Text.len (Text.split content))) as Hlr.
  exists sem, (length_bracket (Text.len (Text.split content))), pos.
  split; [exact Hsem|]. split; [reflexivity|]. split; [exact Hpos|]. split.
  - unfold _compute_final_score, final_score_with. rewrite Hc. simpl default.
    rewrite (truthy_text content Hne). simpl negb. cbv iota.
    rewrite Hsem. simpl Res.bind. rewrite Hpos. reflexivity.
  - unfold Rmin. destruct (Rle_dec _ _); lra.
Qed.

(** C1. For a section whose content is a non-empty text (and whose
    position, as in the data model, is absent or an integer), the three
    sub-scorers return numbers, the final score is
    min(0.6 * semantic + 0.3 * length + 0.1 * position, 1.0), and it lies
    between 0 and 1. *)
Theorem final_score_blend (doc_section : gmap string value)
    (context_data : gmap string string) (content : string) :
  doc_section !! "content" = Some (VStr content) ->
  content <> EmptyString ->
  Spec.is_integer (doc_section !! "position") ->
  exists semantic length position : R,
    _compute_tfidf_relevance (VStr content) context_data = inr semantic
    /\ _assess_content_length (VStr content) = inr length
    /\ _compute_position_weight doc_section = inr position
    /\ _compute_final_score doc_section context_data
       = inr (Rmin (0.6 * semantic + 0.3 * length + 0.1 * position) 1.0)
    /\ 0 <= Rmin (0.6 * semantic + 0.3 * length + 0.1 * position) 1.0 <= 1.
Proof. apply final_score_of_text. Qed.

(** The section of the worked example of the specification. *)
Lemma final_score_blend_witness :
  let doc_section : gmap string value :=
    <["position" := VInt 0]> {["content" := VStr "math is fun and math is useful"]} in
  let context_data : gmap string string :=
    <["job_context" := "learn math"]> {["persona_role" := "Student"]} in
  exists semantic length position : R,
    _compute_tfidf_relevance (VStr "math is fun and math is useful") context_data
    = inr semantic
    /\ _assess_content_length (VStr "math is fun and math is useful") = inr length
    /\ _compute_position_weight doc_section = inr position
    /\ _compute_final_score doc_section context_data
       = inr (Rmin (0.6 * semantic + 0.3 * length + 0.1 * position) 1.0)
    /\ 0 <= Rmin (0.6 * semantic + 0.3 * length + 0.1 * position) 1.0 <= 1.
Proof.
  intros doc_section context_data.
  apply (final_score_blend doc_section context_data "math is fun and math is useful").
  - reflexivity.
  - discriminate.
  - exact I.
Defined.

End CompositeScore.

(** ** The store during a ranking call *)

Section StoreSteps.

Local Open Scope nat_scope.

Lemma ranked_section_other (score : R) (d : gmap string value) (k : string) :
  k <> "relevance_score" -> k <> "final_relevance_score" ->
  Spec.ranked_section score d !! k = d !! k.
Proof.
  intros H1 H2. unfold Spec.ranked_section.
  rewrite !lookup_insert_ne by congruence. reflexivity.
Qed.

Lemma ranked_section_scores (score : R) (d : gmap string value) :
  Spec.ranked_section score d !! "relevance_score" = Some (VFloat score)
  /\ Spec.ranked_section score d !! "final_relevance_score" = Some (VFloat score).
Proof.
  unfold Spec.ranked_section. split.
  - rewrite lookup_insert_ne by discriminate. apply lookup_insert_eq.
  - apply lookup_insert_eq.
Qed.

Lemma ranked_section_dom (score : R) (d : gmap string value) :
  dom (Spec.ranked_section score d)
  = {["final_relevance_score"]} ∪ ({["relevance_score"]} ∪ dom d).
Proof. unfold Spec.ranked_section. rewrite !dom_insert_L. reflexivity. Qed.

(** Assignment to an item of the newest object of the store. *)
Lemma setitem_newest (h : Store.heap) (d : gmap string value) (k : string) (v : value) :
  Store.setitem (length h) k v (h ++ [d]) = (inr (), h ++ [<[k := v]> d]).
Proof.
  unfold Store.setitem. rewrite list_lookup_middle by reflexivity.
  rewrite insert_app_r_alt by lia. rewrite Nat.sub_diag. reflexivity.
Qed.

(** One turn of the loop: the section is read, and its scored copy is
    put at the end of the store. *)
Lemma annotate_run (context_data : gmap string string) (x : Store.ref)
    (h : Store.heap) :
  Ranking.annotate context_data x h
  = match h !! x with
    | None => (inl InvalidRef, h)
    | Some d =>
        match _compute_final_score d context_data with
        | inl e => (inl e, h)
        | inr s => (inr (length h), h ++ [Spec.ranked_section s d])
        end
    end.
Proof.
  unfold Ranking.annotate, Store.bind, Store.deref.
  destruct (h !! x) as [d|] eqn:Hx; [|reflexivity].
  unfold Store.lift. destruct (_compute_final_score d context_data) as [e|s];
    [reflexivity|].
  unfold Store.dict_copy. rewrite Hx.
  rewrite !setitem_newest. reflexivity.
Qed.

(** A step never writes to an object that was in the store before. *)
Lemma annotate_frame (context_data : gmap string string) (x : Store.ref)
    (h : Store.heap) :
  exists new, (Ranking.annotate context_data x h).2 = h ++ new.
Proof.
  rewrite annotate_run. destruct (h !! x) as [d|].
  - destruct (_compute_final_score d context_data) as [e|s].
    + exists []. simpl. rewrite app_nil_r. reflexivity.
    + eexists. reflexivity.
  - exists []. simpl. rewrite app_nil_r. reflexivity.
Qed.

Lemma for_each_section_frame (context_data : gmap string string)
    (doc_sections ranked : list Store.ref) (h : Store.heap) :
  exists new,
    (Ranking.for_each_section context_data ranked doc_sections h).2 = h ++ new.
Proof.
  revert ranked h. induction doc_sections as [|x xs IH]; intros ranked h.
  - exists []. simpl. rewrite app_nil_r. reflexivity.
  - simpl. unfold Store.bind.
    destruct (annotate_frame context_data x h) as [new1 H1].
    destruct (Ranking.annotate context_data x h) as [[e|y] h1]; simpl in H1; subst h1.
    + exists new1. reflexivity.
    + destruct (IH (ranked ++ [y]) (h ++ new1)) as [new2 H2].
      exists (new1 ++ new2). rewrite H2. rewrite app_assoc. reflexivity.
Qed.

Lemma sort_key_frame (x : Store.ref) (h : Store.heap) :
  (Ranking.sort_key x h).2 = h.
Proof.
  unfold Ranking.sort_key, Store.bind, Store.deref, Store.lift.
  destruct (h !! x); reflexivity.
Qed.

Lemma keyed_frame (l : list Store.ref) (h : Store.heap) :
  (Ranking.keyed l h).2 = h.
Proof.
  induction l as [|x l IH]; [reflexivity|].
  simpl. unfold Store.bind.
  pose proof (sort_key_frame x h) as Hk.
  destruct (Ranking.sort_key x h) as [[e|k] h1]; simpl in Hk; subst h1;
    [reflexivity|].
  destruct (Ranking.keyed l h) as [[e|kl] h1]; simpl in IH; subst h1; reflexivity.
Qed.

Lemma rank_sections_frame (doc_sections : list Store.ref)
    (user_persona job_details : gmap string string) (h : Store.heap) :
  exists new,
    (Ranking.run (Ranking.rank_sections doc_sections user_persona job_details) h).2
    = h ++ new.
Proof.
  unfold Ranking.run, Ranking.rank_sections.
  destruct doc_sections as [|x xs].
  - exists []. simpl. rewrite app_nil_r. reflexivity.
  - unfold Store.bind.
    destruct (for_each_section_frame
                (_build_persona_context user_persona job_details) (x :: xs) [] h)
      as [new Hn].
    destruct (Ranking.for_each_section _ [] (x :: xs) h) as [[e|ranked] h1];
      simpl in Hn; subst h1.
    + exists new. reflexivity.
    + exists new. unfold Ranking.sort_by_score_reverse, Store.bind.
      pose proof (keyed_frame ranked (h ++ new)) as Hk.
      destruct (Ranking.keyed ranked (h ++ new)) as [[e|kl] h1]; simpl in Hk;
        subst h1; reflexivity.
Qed.

End StoreSteps.

(** ** The sort *)

Section SortProperties.

Local Open Scope nat_scope.

Lemma insert_by_key_perm {A} (x : R * A) (l : list (R * A)) :
  Permutation (ListSort.insert_by_key x l) (x :: l).
Proof.
  induction l as [|y l IH]; simpl; [reflexivity|].
  destruct (Rlt_dec (fst y) (fst x)); [|reflexivity].
  rewrite IH. apply perm_swap.
Qed.

Lemma stable_sort_perm {A} (l : list (R * A)) :
  Permutation (ListSort.stable_sort l) l.
Proof.
  induction l as [|x l IH]; simpl; [reflexivity|].
  rewrite insert_by_key_perm. rewrite IH. reflexivity.
Qed.

Lemma sort_reverse_perm {A} (l : list (R * A)) :
  Permutation (ListSort.sort_reverse l) l.
Proof.
  unfold ListSort.sort_reverse.
  rewrite <- Permutation_rev. rewrite stable_sort_perm.
  symmetry. apply Permutation_rev.
Qed.

Lemma StronglySorted_rev {A} (Rel : A -> A -> Prop) (l : list A) :
  StronglySorted Rel l -> StronglySorted (flip Rel) (rev l).
Proof.
  induction 1 as [|x l Hs IH Hx]; simpl; [constructor|].
  apply StronglySorted_app_2; [|exact IH|repeat constructor].
  intros a b Ha Hb. apply list_elem_of_singleton in Hb as ->.
  unfold flip. rewrite Forall_forall in Hx. apply Hx.
  apply list_elem_of_In. apply in_rev. apply list_elem_of_In. exact Ha.
Qed.

Lemma StronglySorted_lookup {A} (Rel : A -> A -> Prop) (l : list A)
    (a b : nat) (x y : A) :
  StronglySorted Rel l -> a < b -> l !! a = Some x -> l !! b = Some y -> Rel x y.
Proof.
  intros Hs. revert a b. induction Hs as [|z l Hs IH Hz]; intros a b Hab Ha Hb.
  - discriminate.
  - destruct b as [|b]; [lia|]. simpl in Hb. destruct a as [|a].
    + injection Ha as <-. rewrite Forall_forall in Hz. apply Hz.
      apply list_elem_of_In. apply list_elem_of_lookup_2 in Hb.
      apply list_elem_of_In. exact Hb.
    + simpl in Ha. apply (IH a b); [lia | assumption | assumption].
Qed.

(** Inserting an item whose input index is above the indices of a sorted
    list: it goes in front of the items of equal key. *)
Lemma insert_by_key_sorted (x : R * nat) (l : list (R * nat)) :
  StronglySorted (flip Spec.ranked_before) l ->
  Forall (λ z, snd z < snd x) l ->
  StronglySorted (flip Spec.ranked_before) (ListSort.insert_by_key x l).
Proof.
  intros Hs. induction Hs as [|y l Hs IH Hy]; intros Hx; simpl.
  - repeat constructor.
  - apply Forall_cons in Hx as [Hyx Hx].
    destruct (Rlt_dec (fst y) (fst x)) as [Hlt | Hge].
    + constructor; [apply IH; assumption|].
      rewrite (insert_by_key_perm x l). constructor; [|assumption].
      unfold flip, Spec.ranked_before. left. exact Hlt.
    + constructor; [constructor; assumption|].
      constructor.
      * unfold flip, Spec.ranked_before.
        destruct (Rtotal_order (fst x) (fst y)) as [Hl | [He | Hg]];
          [left; exact Hl | right; split; [symmetry; exact He | exact Hyx] | lra].
      * rewrite Forall_forall in Hy, Hx. apply Forall_forall. intros z Hz.
        specialize (Hy z Hz). specialize (Hx z Hz).
        unfold flip, Spec.ranked_before in Hy |- *.
        destruct Hy as [Hy | [Hy _]].
        -- left. lra.
        -- destruct (Rtotal_order (fst x) (fst z)) as [Hl | [He | Hg]];
             [left; exact Hl | right; split; [symmetry; exact He | exact Hx] | lra].
Qed.

Lemma stable_sort_sorted (l : list (R * nat)) :
  StronglySorted (λ a b, snd b < snd a) l ->
  StronglySorted (flip Spec.ranked_before) (ListSort.stable_sort l).
Proof.
  induction 1 as [|x l Hs IH Hx]; simpl; [constructor|].
  apply insert_by_key_sorted; [exact IH|].
  rewrite (stable_sort_perm l). exact Hx.
Qed.

(** Sorting items that come with their input indices, in input order:
    the result is in ranking order. *)
Lemma sort_reverse_sorted (l : list (R * nat)) :
  StronglySorted (λ a b, snd a < snd b) l ->
  StronglySorted Spec.ranked_before (ListSort.sort_reverse l).
Proof.
  intros Hs. unfold ListSort.sort_reverse.
  apply (StronglySorted_rev (flip Spec.ranked_before)).
  apply stable_sort_sorted.
  apply (StronglySorted_rev (λ a b : R * nat, snd a < snd b)). exact Hs.
Qed.

End SortProperties.

(** ** A ranking call, step by step *)

Section RankRun.

Local Open Scope nat_scope.

(** The final score of a section of the data model is a number. *)
Lemma final_score_section (d : gmap string value) (context_data : gmap string string) :
  Spec.is_section d -> exists s : R, _compute_final_score d context_data = inr s.
Proof.
  intros [Hc Hp]. destruct (d !! "content") as [v|] eqn:Hv.
  - destruct v as [| | |content]; try contradiction.
    destruct content as [|c content].
    + eexists. apply (final_score_with_no_content _compute_tfidf_relevance
                        _assess_content_length _compute_position_weight).
      right. exact Hv.
    + destruct (final_score_of_text d context_data (String c content) Hv
                  ltac:(discriminate) Hp) as (sem & len & pos & _ & _ & _ & Hf & _).
      eexists. exact Hf.
  - eexists. apply (final_score_with_no_content _compute_tfidf_relevance
                      _assess_content_length _compute_position_weight).
    left. exact Hv.
Qed.

(** The sections behind the references, each with its score. *)
Lemma valid_input_scored (h : Store.heap) (doc_sections : list Store.ref)
    (context_data : gmap string string) :
  Spec.valid_input h doc_sections ->
  exists sds : list (R * gmap string value),
    Forall2 (λ x sd, h !! x = Some sd.2
                     /\ _compute_final_score sd.2 context_data = inr sd.1)
      doc_sections sds.
Proof.
  induction 1 as [|x xs (d & Hx & Hd) _ (sds & IH)].
  - exists []. constructor.
  - destruct (final_score_section d context_data Hd) as [s Hs].
    exists ((s, d) :: sds). constructor; [split; assumption | exact IH].
Qed.

(** The loop copies the sections, one after the other, to the end of the
    store, and collects the references of the copies in that order. *)
Lemma for_each_section_run (context_data : gmap string string) (h : Store.heap)
    (doc_sections : list Store.ref) (sds : list (R * gmap string value)) :
  Forall2 (λ x sd, h !! x = Some sd.2
                   /\ _compute_final_score sd.2 context_data = inr sd.1)
    doc_sections sds ->
  forall (pre : Store.heap) (ranked : list Store.ref),
    Ranking.for_each_section context_data ranked doc_sections (h ++ pre)
    = (inr (ranked ++ seq (length (h ++ pre)) (length doc_sections)),
       (h ++ pre) ++ map (λ sd, Spec.ranked_section sd.1 sd.2) sds).
Proof.
  induction 1 as [|x [s d] xs sds [Hx Hs] _ IH]; intros pre ranked.
  - simpl. rewrite !app_nil_r. reflexivity.
  - simpl in Hx, Hs. simpl Ranking.for_each_section. unfold Store.bind.
    rewrite annotate_run. rewrite (lookup_app_l_Some _ _ _ _ Hx). rewrite Hs.
    rewrite <- (app_assoc h pre). rewrite IH.
    f_equal.
    + f_equal. rewrite <- app_assoc. f_equal. simpl. f_equal. f_equal.
      rewrite !length_app. simpl. lia.
    + rewrite <- !app_assoc. reflexivity.
Qed.

(** The keys of objects that hold a float under [relevance_score]. *)
Lemma keyed_run (h : Store.heap) (ys : list Store.ref) (ss : list R) :
  Forall2 (λ y s, Spec.relevance_score h y = Some (VFloat s)) ys ss ->
  Ranking.keyed ys h = (inr (zip ss ys), h).
Proof.
  induction 1 as [|y s ys ss Hy _ IH]; [reflexivity|].
  simpl. unfold Store.bind. unfold Ranking.sort_key, Store.bind, Store.deref.
  unfold Spec.relevance_score in Hy.
  destruct (h !! y) as [d|]; [|discriminate].
  unfold Store.lift. rewrite Hy. simpl. rewrite IH. reflexivity.
Qed.

Lemma copies_relevance (h : Store.heap) (sds : list (R * gmap string value)) :
  Forall2 (λ y s,
      Spec.relevance_score (h ++ map (λ sd, Spec.ranked_section sd.1 sd.2) sds) y
      = Some (VFloat s))
    (seq (length h) (length sds)) (map fst sds).
Proof.
  apply Forall2_same_length_lookup. split.
  - rewrite length_seq, length_map. reflexivity.
  - intros i y s Hy Hs. apply lookup_seq in Hy as [-> Hi].
    rewrite list_lookup_fmap in Hs.
    destruct (sds !! i) as [[s' d]|] eqn:Hsd; [|discriminate].
    simpl in Hs. injection Hs as <-.
    unfold Spec.relevance_score. rewrite lookup_app_r by lia.
    replace (length h + i - length h) with i by lia.
    rewrite list_lookup_fmap, Hsd. simpl.
    apply ranked_section_scores.
Qed.

(** A ranking call on sections of the data model: the store gains the
    scored copies, in input order, and the result is the sorted list of
    their references. *)
Lemma rank_sections_run (h : Store.heap) (doc_sections : list Store.ref)
    (user_persona job_details : gmap string string) :
  Spec.valid_input h doc_sections ->
  exists sds : list (R * gmap string value),
    Forall2 (λ x sd,
        h !! x = Some sd.2
        /\ _compute_final_score sd.2
             (_build_persona_context user_persona job_details) = inr sd.1)
      doc_sections sds
    /\ Ranking.run (Ranking.rank_sections doc_sections user_persona job_details) h
       = (inr (map snd (ListSort.sort_reverse
                          (zip (map fst sds)
                               (seq (length h) (length doc_sections))))),
          h ++ map (λ sd, Spec.ranked_section sd.1 sd.2) sds).
Proof.
  intros Hv.
  destruct (valid_input_scored h doc_sections
              (_build_persona_context user_persona job_details) Hv) as [sds Hsds].
  exists sds. split; [exact Hsds|].
  unfold Ranking.run, Ranking.rank_sections.
  destruct doc_sections as [|x xs].
  - inversion Hsds; subst. simpl. rewrite app_nil_r. reflexivity.
  - unfold Store.bind.
    pose proof (for_each_section_run _ h (x :: xs) sds Hsds [] []) as Hrun.
    rewrite app_nil_r, app_nil_l in Hrun.
    rewrite (Forall2_length _ _ _ Hsds) in Hrun |- *. rewrite Hrun.
    unfold Ranking.sort_by_score_reverse, Store.bind.
    rewrite (keyed_run _ _ _ (copies_relevance h sds)). reflexivity.
Qed.

End RankRun.

(** ** The ranking *)

Section RankingOrder.

Local Open Scope nat_scope.

Lemma zip_seq_sorted (ss : list R) (n0 n : nat) :
  StronglySorted (λ a b : R * nat, snd a < snd b) (zip ss (seq n0 n)).
Proof.
  revert ss n0. induction n as [|n IH]; intros ss n0.
  - destruct ss; constructor.
  - destruct ss as [|s ss]; [constructor|]. simpl. constructor; [apply IH|].
    apply Forall_forall. intros [s' y] Hin. apply elem_of_zip_r in Hin.
    apply elem_of_seq in Hin. simpl. lia.
Qed.

(** The outcome of a ranking call on sections of the data model. The
    copy of the section at input index [i] is the object at reference
    [length h + i]; the result lists these references, higher scores
    first and equal scores in input order. *)
Lemma rank_sections_outcome (h : Store.heap) (doc_sections : list Store.ref)
    (user_persona job_details : gmap string string) :
  Spec.valid_input h doc_sections ->
  exists (out : list Store.ref) (h' : Store.heap),
    Ranking.run (Ranking.rank_sections doc_sections user_persona job_details) h
    = (inr out, h')
    /\ out ≡ₚ seq (length h) (length doc_sections)
    /\ (forall (i : nat) (x : Store.ref),
           doc_sections !! i = Some x ->
           exists (d : gmap string value) (s : R),
             h !! x = Some d
             /\ _compute_final_score d
                  (_build_persona_context user_persona job_details) = inr s
             /\ h' !! (length h + i) = Some (Spec.ranked_section s d))
    /\ (forall (a b : nat) (ya yb : Store.ref),
           a < b -> out !! a = Some ya -> out !! b = Some yb ->
           exists sa sb : R,
             Spec.relevance_score h' ya = Some (VFloat sa)
             /\ Spec.relevance_score h' yb = Some (VFloat sb)
             /\ (sb <= sa)%R
             /\ (sa = sb -> ya < yb)).
Proof.
  intros Hv.
  destruct (rank_sections_run h doc_sections user_persona job_details Hv)
    as (sds & Hsds & Hrun).
  pose proof (Forall2_length _ _ _ Hsds) as Hlen.
  set (kl := zip (map fst sds) (seq (length h) (length doc_sections))) in *.
  set (h' := h ++ map (λ sd, Spec.ranked_section sd.1 sd.2) sds) in *.
  assert (Hkey : forall s y, (s, y) ∈ ListSort.sort_reverse kl ->
                             Spec.relevance_score h' y = Some (VFloat s)).
  { intros s y Hin. rewrite (sort_reverse_perm kl) in Hin.
    apply list_elem_of_lookup_1 in Hin as [i Hi].
    apply lookup_zip_with_Some in Hi as (s' & y' & Heq & Hs & Hy).
    injection Heq as -> ->. rewrite Hlen in Hy.
    exact (Forall2_lookup_lr _ _ _ _ _ _ (copies_relevance h sds) Hy Hs). }
  exists (map snd (ListSort.sort_reverse kl)), h'.
  split; [exact Hrun|]. split; [|split].
  - rewrite (sort_reverse_perm kl). unfold kl.
    apply eq_subrelation; [typeclasses eauto|].
    apply snd_zip. rewrite length_map, length_seq. lia.
  - intros i x Hx.
    destruct (Forall2_lookup_l _ _ _ _ _ Hsds Hx) as ([s d] & Hsd & Hd & Hs).
    exists d, s. split; [exact Hd|]. split; [exact Hs|].
    unfold h'. rewrite lookup_app_r by lia.
    replace (length h + i - length h) with i by lia.
    rewrite list_lookup_fmap, Hsd. reflexivity.
  - intros a b ya yb Hab Ha Hb.
    rewrite list_lookup_fmap in Ha, Hb.
    destruct (ListSort.sort_reverse kl !! a) as [[sa ya']|] eqn:Ha'; [|discriminate].
    destruct (ListSort.sort_reverse kl !! b) as [[sb yb']|] eqn:Hb'; [|discriminate].
    simpl in Ha, Hb. injection Ha as ->. injection Hb as ->.
    rename Ha' into Ha, Hb' into Hb. exists sa, sb.
    split; [apply Hkey; eapply list_elem_of_lookup_2; exact Ha|].
    split; [apply Hkey; eapply list_elem_of_lookup_2; exact Hb|].
    pose proof (StronglySorted_lookup _ _ a b _ _
                  (sort_reverse_sorted kl (zip_seq_sorted _ _ _)) Hab Ha Hb) as Hord.
    unfold Spec.ranked_before in Hord. simpl in Hord.
    destruct Hord as [Hlt | [Heq Hlt]]; split; try lra; intros; try lra; assumption.
Qed.

(** C2. The result of a ranking call is sorted by [relevance_score] in
    descending order, and two output records of equal [relevance_score]
    come in the order of the input sections they are copies of (the copy
    of the section at input index [i] being the object at reference
    [length h + i]). *)
Theorem rank_sections_sorted_stable (h : Store.heap) (doc_sections : list Store.ref)
    (user_persona job_details : gmap string string) :
  Spec.valid_input h doc_sections ->
  exists (out : list Store.ref) (h' : Store.heap),
    Ranking.run (Ranking.rank_sections doc_sections user_persona job_details) h
    = (inr out, h')
    /\ out ≡ₚ seq (length h) (length doc_sections)
    /\ (forall (i : nat) (x : Store.ref),
           doc_sections !! i = Some x ->
           exists (d : gmap string value) (s : R),
             h !! x = Some d
             /\ _compute_final_score d
                  (_build_persona_context user_persona job_details) = inr s
             /\ h' !! (length h + i) = Some (Spec.ranked_section s d))
    /\ (forall (a b : nat) (ya yb : Store.ref),
           a < b -> out !! a = Some ya -> out !! b = Some yb ->
           exists sa sb : R,
             Spec.relevance_score h' ya = Some (VFloat sa)
             /\ Spec.relevance_score h' yb = Some (VFloat sb)
             /\ (sb <= sa)%R
             /\ (sa = sb -> ya < yb)).
Proof. apply rank_sections_outcome. Qed.

End RankingOrder.

(** ** The records a ranking call makes *)

Section RankingRecords.

Local Open Scope nat_scope.

(** Two sections of equal score, the first without content. *)
Lemma rank_sections_sorted_stable_witness :
  let h : Store.heap :=
    [ <["position" := VInt 0]> {["content" := VStr ""]};
      <["title" := VStr "Notes"]> ∅ ] in
  let user_persona : gmap string string := {["role" := "Student"]} in
  let job_details : gmap string string := {["task" := "learn math"]} in
  exists (out : list Store.ref) (h' : Store.heap),
    Ranking.run (Ranking.rank_sections [0; 1] user_persona job_details) h
    = (inr out, h')
    /\ out ≡ₚ seq (length h) (length [0; 1])
    /\ (forall (i : nat) (x : Store.ref),
           [0; 1] !! i = Some x ->
           exists (d : gmap string value) (s : R),
             h !! x = Some d
             /\ _compute_final_score d
                  (_build_persona_context user_persona job_details) = inr s
             /\ h' !! (length h + i) = Some (Spec.ranked_section s d))
    /\ (forall (a b : nat) (ya yb : Store.ref),
           a < b -> out !! a = Some ya -> out !! b = Some yb ->
           exists sa sb : R,
             Spec.relevance_score h' ya = Some (VFloat sa)
             /\ Spec.relevance_score h' yb = Some (VFloat sb)
             /\ (sb <= sa)%R
             /\ (sa = sb -> ya < yb)).
Proof.
  intros h user_persona job_details.
  apply (rank_sections_sorted_stable h [0; 1] user_persona job_details).
  repeat constructor; eexists; (split; [reflexivity | split; exact I]).
Defined.

(** A section that already holds a [relevance_score], as a record of an
    earlier ranking does. *)
Example rank_sections_rescored :
  let d : gmap string value :=
    <["relevance_score" := VFloat 0.9]> {["content" := VStr ""]} in
  Ranking.run (Ranking.rank_sections [0] ∅ ∅) [d]
  = (inr [1], [d; Spec.ranked_section 0.0 d]).
Proof. reflexivity. Qed.

(** Against C3 as it is stated: an item of the input section named
    [relevance_score] is not found with its value in the output record,
    it is replaced by the new score. *)
Lemma rank_sections_replaces_score : ~ Spec.keeps_every_item.
Proof.
  intros Hkeep.
  pose (d := (<["relevance_score" := VFloat 0.9]> {["content" := VStr ""]}
              : gmap string value)).
  destruct (Hkeep [d] [d; Spec.ranked_section 0.0 d] [0] [1] ∅ ∅
              rank_sections_rescored 0 0 d eq_refl eq_refl) as (d' & Hd' & Hitems).
  simpl in Hd'. injection Hd' as <-.
  specialize (Hitems "relevance_score" (VFloat 0.9) (lookup_insert_eq _ _ _)).
  rewrite (proj1 (ranked_section_scores 0.0 d)) in Hitems.
  injection Hitems as Hs. lra.
Qed.

(** C3, amended. A ranking call writes to no object that was in the store
    before it, whether it returns or raises: every input section is as it
    was. When it returns, the record made from the section at input index
    [i] is a new object; it has every item of the section other than
    [relevance_score] and [final_relevance_score] with the value it has in
    the section, it has these two items with the score of the section as
    their common value, and it has no other item. *)
Theorem rank_sections_copies :
  (forall (h : Store.heap) (doc_sections : list Store.ref)
          (user_persona job_details : gmap string string)
          (x : Store.ref) (d : gmap string value),
      h !! x = Some d ->
      (Ranking.run (Ranking.rank_sections doc_sections user_persona job_details) h).2
        !! x = Some d)
  /\ (forall (h : Store.heap) (doc_sections : list Store.ref)
             (user_persona job_details : gmap string string),
         Spec.valid_input h doc_sections ->
         exists (out : list Store.ref) (h' : Store.heap),
           Ranking.run (Ranking.rank_sections doc_sections user_persona job_details) h
           = (inr out, h')
           /\ out ≡ₚ seq (length h) (length doc_sections)
           /\ forall (i : nat) (x : Store.ref),
               doc_sections !! i = Some x ->
               exists (d d' : gmap string value) (s : R),
                 h !! x = Some d
                 /\ h' !! x = Some d
                 /\ h' !! (length h + i) = Some d'
                 /\ _compute_final_score d
                      (_build_persona_context user_persona job_details) = inr s
                 /\ (forall k : string,
                        k <> "relevance_score" -> k <> "final_relevance_score" ->
                        d' !! k = d !! k)
                 /\ d' !! "relevance_score" = Some (VFloat s)
                 /\ d' !! "final_relevance_score" = Some (VFloat s)
                 /\ dom d' = {["final_relevance_score"]}
                              ∪ ({["relevance_score"]} ∪ dom d)).
Proof.
  assert (Hframe : forall h doc_sections user_persona job_details x d,
             h !! x = Some d ->
             (Ranking.run (Ranking.rank_sections doc_sections user_persona
                             job_details) h).2 !! x = Some d).
  { intros h xs persona job x d Hx.
    destruct (rank_sections_frame xs persona job h) as [new ->].
    apply lookup_app_l_Some. exact Hx. }
  split; [exact Hframe|].
  intros h xs persona job Hv.
  destruct (rank_sections_outcome h xs persona job Hv)
    as (out & h' & Hrun & Hperm & Hcopy & _).
  exists out, h'. split; [exact Hrun|]. split; [exact Hperm|].
  intros i x Hx. destruct (Hcopy i x Hx) as (d & s & Hd & Hs & Hd').
  exists d, (Spec.ranked_section s d), s.
  split; [exact Hd|]. split.
  { pose proof (Hframe h xs persona job x d Hd) as Hf.
    rewrite Hrun in Hf. exact Hf. }
  split; [exact Hd'|]. split; [exact Hs|]. split.
  { intros k Hk1 Hk2. apply ranked_section_other; assumption. }
  split; [apply ranked_section_scores|].
  split; [apply ranked_section_scores|]. apply ranked_section_dom.
Qed.

(** A section with a title, ranked for a student who learns math. *)
Lemma rank_sections_copies_witness :
  let h : Store.heap :=
    [ <["title" := VStr "Notes"]> {["content" := VStr ""]} ] in
  (Ranking.run (Ranking.rank_sections [0] {["role" := "Student"]}
                  {["task" := "learn math"]}) h).2 !! 0
  = Some (<["title" := VStr "Notes"]> {["content" := VStr ""]})
  /\ exists (out : list Store.ref) (h' : Store.heap),
      Ranking.run (Ranking.rank_sections [0] {["role" := "Student"]}
                     {["task" := "learn math"]}) h = (inr out, h')
      /\ out ≡ₚ seq (length h) (length [0]).
Proof.
  intros h. destruct rank_sections_copies as [Hframe Hcopies]. split.
  - apply (Hframe h [0] {["role" := "Student"]} {["task" := "learn math"]} 0).
    reflexivity.
  - destruct (Hcopies h [0] {["role" := "Student"]} {["task" := "learn math"]})
      as (out & h' & Hrun & Hperm & _).
    + repeat constructor; eexists; (split; [reflexivity | split; exact I]).
    + exists out, h'. split; [exact Hrun | exact Hperm].
Defined.

End RankingRecords.

(** * Further properties of the scorers *)

(** ** Lower-casing and splitting *)

Section TextFacts.

Lemma lower_char_idem (c : ascii) :
  Text.lower_char (Text.lower_char c) = Text.lower_char c.
Proof. destruct c as [[] [] [] [] [] [] [] []]; reflexivity. Qed.

Lemma lower_idem (s : string) : Text.lower (Text.lower s) = Text.lower s.
Proof.
  induction s as [|c s IH]; [reflexivity|].
  simpl. rewrite lower_char_idem, IH. reflexivity.
Qed.

Lemma lower_app (a b : string) :
  Text.lower (a +:+ b) = Text.lower a +:+ Text.lower b.
Proof.
  induction a as [|c a IH]; [reflexivity|]. simpl. rewrite IH. reflexivity.
Qed.

Lemma lower_empty (s : string) : Text.lower s = EmptyString <-> s = EmptyString.
Proof. destruct s; simpl; split; intros H; [reflexivity|reflexivity|discriminate|discriminate]. Qed.

Lemma split_from_lower (s cur : string) :
  Text.split_from (Text.lower cur) (Text.lower s)
  = map Text.lower (Text.split_from cur s).
Proof.
  revert cur. induction s as [|c s IH]; intros cur.
  - destruct cur; reflexivity.
  - simpl. rewrite lower_char_space. destruct (Text.is_space c).
    + destruct cur as [|c' cur]; simpl.
      * apply (IH EmptyString).
      * f_equal. apply (IH EmptyString).
    + rewrite <- IH. rewrite lower_app. reflexivity.
Qed.

(** The words of a lower-cased text are the lower-cased words of the text. *)
Lemma split_lower (s : string) :
  Text.split (Text.lower s) = map Text.lower (Text.split s).
Proof. apply (split_from_lower s EmptyString). Qed.

Lemma split_from_app_space (a b cur : string) (c : ascii) :
  Text.is_space c = true ->
  Text.split_from cur (a +:+ String c b) = Text.split_from cur a ++ Text.split b.
Proof.
  intros Hc. revert cur. induction a as [|c' a IH]; intros cur; simpl.
  - rewrite Hc. destruct cur; reflexivity.
  - destruct (Text.is_space c').
    + destruct cur; simpl; rewrite IH; reflexivity.
    + apply IH.
Qed.

Lemma no_space_snoc (cur : string) (c : ascii) :
  Spec.no_space cur = true -> Text.is_space c = false ->
  Spec.no_space (cur +:+ String c EmptyString) = true.
Proof.
  intros Hcur Hc. induction cur as [|c' cur IH]; simpl in *.
  - rewrite Hc. reflexivity.
  - apply andb_true_iff in Hcur as [H1 H2]. rewrite H1. simpl. apply IH. exact H2.
Qed.

Lemma snoc_not_empty (cur : string) (c : ascii) :
  cur +:+ String c EmptyString <> EmptyString.
Proof. destruct cur; discriminate. Qed.

Lemma split_from_words (s cur w : string) :
  Spec.no_space cur = true ->
  w ∈ Text.split_from cur s ->
  w <> EmptyString /\ Spec.no_space w = true.
Proof.
  revert cur. induction s as [|c s IH]; intros cur Hcur Hw; simpl in Hw.
  - destruct cur as [|c' cur]; [inversion Hw|].
    apply list_elem_of_singleton in Hw as ->. split; [discriminate | exact Hcur].
  - destruct (Text.is_space c) eqn:Hc.
    + destruct cur as [|c' cur]; [apply (IH EmptyString); [reflexivity | exact Hw]|].
      apply elem_of_cons in Hw as [-> | Hw]; [split; [discriminate | exact Hcur]|].
      apply (IH EmptyString); [reflexivity | exact Hw].
    + apply (IH (cur +:+ String c EmptyString)); [|exact Hw].
      apply no_space_snoc; assumption.
Qed.

(** A word of [s.split()] is not empty and holds no whitespace. *)
Lemma split_words (s w : string) :
  w ∈ Text.split s -> w <> EmptyString /\ Spec.no_space w = true.
Proof. apply split_from_words. reflexivity. Qed.

End TextFacts.

(** ** The keywords of a context *)

Section Keywords.

Local Open Scope Z_scope.

Lemma keywords_elem (role_info task_info k : string) :
  k ∈ _extract_context_keywords role_info task_info
  <-> 2 < Text.len_str k
      /\ (k ∈ Text.split (Text.lower role_info)
          \/ k ∈ Text.split (Text.lower task_info)).
Proof.
  unfold _extract_context_keywords.
  rewrite elem_of_list_to_set, list_elem_of_filter.
  rewrite lower_app.
  change (Text.lower (" " +:+ task_info)) with (String " " (Text.lower task_info)).
  unfold Text.split at 1.
  rewrite split_from_app_space by reflexivity.
  rewrite elem_of_app. reflexivity.
Qed.

(** X1. A word is a keyword of a role and a task exactly when it has more
    than two characters and is a word of the lower-cased role or of the
    lower-cased task; so the role and the task can be exchanged. *)
Theorem keywords_membership (role_info task_info : string) :
  (forall k : string,
      k ∈ _extract_context_keywords role_info task_info
      <-> 2 < Text.len_str k
          /\ (k ∈ Text.split (Text.lower role_info)
              \/ k ∈ Text.split (Text.lower task_info)))
  /\ _extract_context_keywords role_info task_info
     = _extract_context_keywords task_info role_info.
Proof.
  split; [intros k; apply keywords_elem|].
  apply set_eq. intros k. rewrite !keywords_elem. tauto.
Qed.

Lemma keyword_shape (role_info task_info k : string) :
  k ∈ _extract_context_keywords role_info task_info ->
  2 < Text.len_str k /\ Spec.no_space k = true /\ Text.lower k = k.
Proof.
  intros Hk. apply keywords_elem in Hk as [Hlen Hin].
  split; [exact Hlen|].
  assert (Hw : exists text, k ∈ Text.split (Text.lower text))
    by (destruct Hin; eauto).
  destruct Hw as [text Hw]. split.
  - apply (split_words _ _ Hw).
  - rewrite split_lower in Hw. apply list_elem_of_In in Hw.
    apply in_map_iff in Hw as (w & <- & _). apply lower_idem.
Qed.

(** X2. Every keyword has more than two characters, holds no whitespace
    and is in lower case. *)
Theorem keywords_shape (role_info task_info k : string) :
  k ∈ _extract_context_keywords role_info task_info ->
  2 < Text.len_str k /\ Spec.no_space k = true /\ Text.lower k = k.
Proof. apply keyword_shape. Qed.

(** The keyword "math" of a student who has to Learn MATH. *)
Lemma keywords_shape_witness :
  2 < Text.len_str "math" /\ Spec.no_space "math" = true
  /\ Text.lower "math" = "math".
Proof.
  apply (keywords_shape "Student" "Learn MATH" "math").
  apply (bool_decide_eq_true_1
           ("math" ∈ _extract_context_keywords "Student" "Learn MATH")).
  vm_compute. reflexivity.
Defined.

Lemma keywords_lower (role_info task_info : string) :
  _extract_context_keywords (Text.lower role_info) (Text.lower task_info)
  = _extract_context_keywords role_info task_info.
Proof.
  apply set_eq. intros k. rewrite !keywords_elem, !lower_idem. reflexivity.
Qed.

End Keywords.

(** ** The frequency table *)

Section FrequencyTable.

Local Open Scope Z_scope.

Lemma total_count_word (m : gmap string Z) (w : string) :
  Spec.total_count (Py.count_word m w) = Spec.total_count m + 1.
Proof.
  unfold Spec.total_count, Py.count_word.
  destruct (m !! w) as [c|] eqn:Hw; simpl.
  - rewrite <- insert_delete_eq.
    rewrite map_fold_insert_L; [|intros; lia|apply lookup_delete_eq].
    rewrite (map_fold_delete_L _ _ w c m); [lia|intros; lia|exact Hw].
  - rewrite map_fold_insert_L; [lia|intros; lia|exact Hw].
Qed.

Lemma total_count_foldl (ws : list string) (m : gmap string Z) :
  Spec.total_count (foldl Py.count_word m ws) = Spec.total_count m + Text.len ws.
Proof.
  revert m. induction ws as [|w ws IH]; intros m; simpl.
  - unfold Text.len. simpl. lia.
  - rewrite IH, total_count_word. unfold Text.len. simpl length. lia.
Qed.

Lemma total_count_Counter (ws : list string) :
  Spec.total_count (Py.Counter ws) = Text.len ws.
Proof.
  unfold Py.Counter. rewrite total_count_foldl.
  unfold Spec.total_count. rewrite map_fold_empty. lia.
Qed.

(** X3. The frequency table of a text holds, for every word of the
    lower-cased text, the number of its occurrences, which is at least 1,
    and holds no other word; its counts add up to the number of words; the
    table of the lower-cased text is the same table. *)
Theorem word_frequencies_table (text : string) :
  let tokens := Text.split (Text.lower text) in
  exists table : gmap string Z,
    _calculate_word_frequencies (VStr text) = inr table
    /\ (forall w : string,
           w ∈ tokens ->
           table !! w = Some (Spec.occurrences w tokens)
           /\ 1 <= Spec.occurrences w tokens)
    /\ (forall w : string, w ∉ tokens -> table !! w = None)
    /\ Spec.total_count table = Text.len tokens
    /\ _calculate_word_frequencies (VStr (Text.lower text)) = inr table.
Proof.
  intros tokens. exists (Py.Counter tokens).
  split; [reflexivity|]. split; [|split; [|split]].
  - intros w Hw. rewrite Counter_lookup.
    destruct (decide (w ∈ tokens)); [|contradiction].
    split; [reflexivity | apply occurrences_pos; assumption].
  - intros w Hw. rewrite Counter_lookup.
    destruct (decide (w ∈ tokens)); [contradiction | reflexivity].
  - apply total_count_Counter.
  - unfold _calculate_word_frequencies. simpl. rewrite lower_idem. reflexivity.
Qed.

(** The table of "Math is fun and MATH is useful" at "math" and at "MATH". *)
Lemma word_frequencies_table_witness :
  exists table : gmap string Z,
    _calculate_word_frequencies (VStr "Math is fun and MATH is useful") = inr table
    /\ table !! "math" = Some 2
    /\ table !! "MATH" = None
    /\ Spec.total_count table = 7.
Proof.
  destruct (word_frequencies_table "Math is fun and MATH is useful")
    as (table & Hrun & Hin & Hout & Htotal & _).
  exists table. split; [exact Hrun|]. split; [|split].
  - apply (Hin "math"). apply (bool_decide_eq_true_1 _). vm_compute. reflexivity.
  - apply (Hout "MATH"). apply (bool_decide_eq_false_1 _). vm_compute. reflexivity.
  - exact Htotal.
Defined.

End FrequencyTable.

(** ** The size of the relevance *)

Section RelevanceSize.

Local Open Scope R_scope.

Lemma ln_2_lt_1 : ln 2 < 1.
Proof.
  apply exp_lt_inv. rewrite exp_ln by lra.
  pose proof (exp_ineq1 1 ltac:(lra)). lra.
Qed.

Lemma ln_2_pos : 0 < ln 2.
Proof. rewrite <- ln_1. apply ln_increasing; lra. Qed.

Lemma idf_le_ln_2 (count : Z) : ln (1 + 1 / IZR (Z.max 1 count)) <= ln 2.
Proof.
  assert (H1 : 1 <= IZR (Z.max 1 count)) by (apply IZR_le; lia).
  assert (H2 : 0 < 1 / IZR (Z.max 1 count)) by (apply Rdiv_lt_0_compat; lra).
  assert (H3 : 1 / IZR (Z.max 1 count) <= 1).
  { apply (Rmult_le_reg_r (IZR (Z.max 1 count))); [lra|].
    unfold Rdiv. rewrite Rmult_assoc, Rinv_l by lra. lra. }
  destruct (Req_dec (1 + 1 / IZR (Z.max 1 count)) 2) as [-> | Hne]; [lra|].
  left. apply ln_increasing; lra.
Qed.

(** Among words without repetition, at most one is a given word. *)
Lemma matches_at_most_one (x : string) (keywords : list string) :
  NoDup keywords ->
  (foldr (λ k acc, (if decide (x = k) then 1 else 0) + acc) 0 keywords <= 1)%Z.
Proof.
  induction 1 as [|k ks Hk _ IH]; simpl; [lia|].
  destruct (decide (x = k)) as [-> | _]; [|lia].
  assert (Hz : foldr (λ k0 acc, ((if decide (k = k0) then 1 else 0) + acc)%Z)
                 0%Z ks = 0%Z).
  { clear IH. induction ks as [|k' ks IH]; [reflexivity|]. simpl.
    apply not_elem_of_cons in Hk as [Hne Hk].
    destruct (decide (k = k')); [contradiction|]. rewrite IH by assumption.
    reflexivity. }
  rewrite Hz. lia.
Qed.

(** The occurrences of pairwise different words do not exceed the number
    of tokens. *)
Lemma occurrences_sum_le (tokens keywords : list string) :
  NoDup keywords ->
  (foldr (λ k acc, Spec.occurrences k tokens + acc) 0 keywords
   <= Text.len tokens)%Z.
Proof.
  intros Hnd. induction tokens as [|x ws IH].
  - assert (Hz : foldr (λ k acc, (Spec.occurrences k [] + acc)%Z) 0%Z keywords
                 = 0%Z).
    { clear Hnd. induction keywords as [|k ks IHk]; [reflexivity|].
      simpl. rewrite IHk. reflexivity. }
    rewrite Hz. unfold Text.len. simpl. lia.
  - assert (Hsplit :
      foldr (λ k acc, (Spec.occurrences k (x :: ws) + acc)%Z) 0%Z keywords
      = (foldr (λ k acc, ((if decide (x = k) then 1 else 0) + acc)%Z) 0%Z keywords
         + foldr (λ k acc, (Spec.occurrences k ws + acc)%Z) 0%Z keywords)%Z).
    { clear. induction keywords as [|k ks IHk]; [reflexivity|].
      simpl. rewrite IHk, occurrences_cons. lia. }
    rewrite Hsplit. pose proof (matches_at_most_one x keywords Hnd).
    unfold Text.len in *. simpl length. lia.
Qed.

Lemma tfidf_term_le (tokens : list string) (keyword : string) :
  tokens <> [] ->
  Spec.tfidf_term tokens keyword
  <= IZR (Spec.occurrences keyword tokens) * (ln 2 / IZR (Text.len tokens)).
Proof.
  intros Hne.
  assert (Hlen : 0 < IZR (Text.len tokens)).
  { apply IZR_lt. unfold Text.len. destruct tokens; [contradiction | simpl length; lia]. }
  pose proof ln_2_pos as Hln.
  unfold Spec.tfidf_term. destruct (decide (keyword ∈ tokens)) as [Hin | Hnin].
  - pose proof (idf_le_ln_2 (Spec.occurrences keyword tokens)) as Hidf.
    pose proof (idf_nonneg (Spec.occurrences keyword tokens)) as Hidf0.
    assert (Hocc : 0 <= IZR (Spec.occurrences keyword tokens))
      by (apply IZR_le, occurrences_nonneg).
    assert (Hq : 0 <= IZR (Spec.occurrences keyword tokens) / IZR (Text.len tokens)).
    { apply Rmult_le_pos; [assumption|]. left. apply Rinv_0_lt_compat. assumption. }
    replace (IZR (Spec.occurrences keyword tokens) * (ln 2 / IZR (Text.len tokens)))
      with (IZR (Spec.occurrences keyword tokens) / IZR (Text.len tokens) * ln 2)
      by (field; lra).
    apply Rmult_le_compat_l; assumption.
  - rewrite (occurrences_absent _ _ Hnin). lra.
Qed.

Lemma tfidf_terms_le (tokens keywords : list string) :
  tokens <> [] ->
  foldr (λ keyword acc, Spec.tfidf_term tokens keyword + acc) 0 keywords
  <= IZR (foldr (λ k acc, Spec.occurrences k tokens + acc)%Z 0%Z keywords)
     * (ln 2 / IZR (Text.len tokens)).
Proof.
  intros Hne. induction keywords as [|k ks IH]; simpl; [lra|].
  rewrite plus_IZR. pose proof (tfidf_term_le tokens k Hne). lra.
Qed.

Lemma tfidf_terms_zero (keywords : list string) :
  foldr (λ keyword acc, Spec.tfidf_term [] keyword + acc) 0 keywords = 0.
Proof.
  induction keywords as [|k ks IH]; simpl; [reflexivity|].
  rewrite IH. unfold Spec.tfidf_term.
  destruct (decide (k ∈ [])) as [Hin | _]; [inversion Hin | lra].
Qed.

(** The sum over a keyword set stays below [ln 2]. *)
Lemma tfidf_sum_le_ln_2 (keywords : gset string) (content : string) :
  Spec.tfidf_sum keywords content <= ln 2.
Proof.
  unfold Spec.tfidf_sum. pose proof ln_2_pos as Hln.
  destruct (Text.split (Text.lower content)) as [|x ws] eqn:Htok.
  - rewrite tfidf_terms_zero. lra.
  - etransitivity; [apply tfidf_terms_le; discriminate|].
    pose proof (occurrences_sum_le (x :: ws) (elements keywords)
                  (NoDup_elements keywords)) as Hle.
    apply IZR_le in Hle.
    assert (Hlen : 0 < IZR (Text.len (x :: ws))).
    { apply IZR_lt. unfold Text.len. simpl length. lia. }
    assert (Hq : 0 <= ln 2 / IZR (Text.len (x :: ws))).
    { apply Rmult_le_pos; [lra|]. left. apply Rinv_0_lt_compat. assumption. }
    etransitivity; [apply Rmult_le_compat_r; [exact Hq | exact Hle]|].
    right. field. lra.
Qed.

End RelevanceSize.

(** ** The relevance and the final score, more closely *)

Section ScoreSize.

Local Open Scope R_scope.

Lemma tfidf_term_pos (tokens : list string) (keyword : string) :
  keyword ∈ tokens -> 0 < Spec.tfidf_term tokens keyword.
Proof.
  intros Hin. unfold Spec.tfidf_term.
  destruct (decide (keyword ∈ tokens)); [|contradiction].
  assert (Hocc : 0 < IZR (Spec.occurrences keyword tokens)).
  { apply IZR_lt. pose proof (occurrences_pos _ _ Hin). lia. }
  assert (Hlen : 0 < IZR (Text.len tokens)).
  { apply IZR_lt. unfold Text.len. destruct tokens; [inversion Hin | simpl length; lia]. }
  apply Rmult_lt_0_compat; [apply Rdiv_lt_0_compat; assumption|].
  assert (H1 : 1 <= IZR (Z.max 1 (Spec.occurrences keyword tokens)))
    by (apply IZR_le; lia).
  assert (H2 : 0 < 1 / IZR (Z.max 1 (Spec.occurrences keyword tokens)))
    by (apply Rdiv_lt_0_compat; lra).
  rewrite <- ln_1. apply ln_increasing; lra.
Qed.

Lemma tfidf_terms_zero_iff (tokens keywords : list string) :
  foldr (λ keyword acc, Spec.tfidf_term tokens keyword + acc) 0 keywords = 0
  <-> forall k : string, k ∈ keywords -> k ∉ tokens.
Proof.
  induction keywords as [|k ks IH]; simpl.
  - split; [intros _ k Hk; inversion Hk | reflexivity].
  - pose proof (tfidf_term_nonneg tokens k) as Hk0.
    pose proof (tfidf_terms_nonneg tokens ks) as Hks0.
    split.
    + intros Hsum k' Hk'. apply elem_of_cons in Hk' as [-> | Hk'].
      * intros Hin. pose proof (tfidf_term_pos tokens k Hin). lra.
      * apply IH; [lra | exact Hk'].
    + intros Hnone.
      assert (Hk : Spec.tfidf_term tokens k = 0).
      { unfold Spec.tfidf_term. destruct (decide (k ∈ tokens)) as [Hin | _];
          [|reflexivity]. exfalso. apply (Hnone k); [left | exact Hin]. }
      assert (Hks : foldr (λ keyword acc, Spec.tfidf_term tokens keyword + acc)
                      0 ks = 0).
      { apply IH. intros k' Hk'. apply Hnone. right. exact Hk'. }
      lra.
Qed.

(** The relevance of a text for a context with keywords is the sum
    itself: the minimum with 1.0 never takes effect. *)
Lemma tfidf_relevance_sum (content : string) (context_data : gmap string string) :
  let keywords :=
    _extract_context_keywords
      (default EmptyString (context_data !! "persona_role"))
      (default EmptyString (context_data !! "job_context")) in
  keywords <> ∅ ->
  _compute_tfidf_relevance (VStr content) context_data
  = inr (Spec.tfidf_sum keywords content).
Proof.
  intros keywords Hne. rewrite tfidf_relevance_text. fold keywords.
  destruct (decide (keywords = ∅)); [contradiction|].
  f_equal. apply Rmin_left.
  pose proof (tfidf_sum_le_ln_2 keywords content). pose proof ln_2_lt_1. lra.
Qed.

(** X4. For a context with keywords the relevance of a text is the sum of
    the keyword terms as it is, between 0 and ln 2: the sum stays below 1,
    so that clamping it to 1.0 changes nothing. *)
Theorem tfidf_relevance_below_ln_2 (content : string)
    (context_data : gmap string string) :
  let keywords :=
    _extract_context_keywords
      (default EmptyString (context_data !! "persona_role"))
      (default EmptyString (context_data !! "job_context")) in
  keywords <> ∅ ->
  _compute_tfidf_relevance (VStr content) context_data
  = inr (Spec.tfidf_sum keywords content)
  /\ 0 <= Spec.tfidf_sum keywords content <= ln 2
  /\ ln 2 < 1.
Proof.
  intros keywords Hne. split; [apply tfidf_relevance_sum; exact Hne|].
  split; [|exact ln_2_lt_1].
  split; [apply tfidf_sum_nonneg | apply tfidf_sum_le_ln_2].
Qed.

(** X5. For a context with keywords the relevance of a text is 0 exactly
    when no keyword is a word of the lower-cased text, and is positive
    otherwise; a context without keywords gives 0.5 to the same text. *)
Theorem tfidf_relevance_zero_iff (content : string)
    (context_data : gmap string string) :
  let keywords :=
    _extract_context_keywords
      (default EmptyString (context_data !! "persona_role"))
      (default EmptyString (context_data !! "job_context")) in
  let tokens := Text.split (Text.lower content) in
  keywords <> ∅ ->
  exists relevance : R,
    _compute_tfidf_relevance (VStr content) context_data = inr relevance
    /\ (relevance = 0 <-> forall k : string, k ∈ keywords -> k ∉ tokens)
    /\ (0 < relevance <-> exists k : string, k ∈ keywords /\ k ∈ tokens)
    /\ _compute_tfidf_relevance (VStr content) ∅ = inr 0.5.
Proof.
  intros keywords tokens Hne. exists (Spec.tfidf_sum keywords content).
  split; [apply tfidf_relevance_sum; exact Hne|].
  assert (Hzero : Spec.tfidf_sum keywords content = 0
                  <-> forall k : string, k ∈ keywords -> k ∉ tokens).
  { unfold Spec.tfidf_sum. rewrite tfidf_terms_zero_iff.
    split; intros H k Hk; apply H; apply elem_of_elements; exact Hk. }
  split; [exact Hzero|]. split.
  - pose proof (tfidf_sum_nonneg keywords content) as H0. split.
    + intros Hpos.
      destruct (decide (Exists (λ k, k ∈ tokens) (elements keywords)))
        as [Hsome | Hnone].
      * apply Exists_exists in Hsome as (k & Hk & Hin).
        exists k. split; [apply elem_of_elements; exact Hk | exact Hin].
      * exfalso. assert (Hz : Spec.tfidf_sum keywords content = 0); [|lra].
        apply Hzero. intros k Hk Hin. apply Hnone. apply Exists_exists.
        exists k. split; [apply elem_of_elements; exact Hk | exact Hin].
    + intros (k & Hk & Hin).
      destruct (Req_dec (Spec.tfidf_sum keywords content) 0) as [Hz | Hnz]; [|lra].
      exfalso. apply (proj1 Hzero Hz k Hk Hin).
  - reflexivity.
Qed.

End ScoreSize.

(** ** The final score, by the type and the value of the items *)

Section ScoreByItems.

Local Open Scope R_scope.

(** The context of a student who has to learn math has keywords. *)
Lemma student_keywords :
  _extract_context_keywords
    (default EmptyString
       ((<["job_context" := "learn math"]> {["persona_role" := "Student"]}
         : gmap string string) !! "persona_role"))
    (default EmptyString
       ((<["job_context" := "learn math"]> {["persona_role" := "Student"]}
         : gmap string string) !! "job_context")) <> ∅.
Proof.
  intros Hempty.
  apply (f_equal (fun ks : gset string => bool_decide ("math" ∈ ks))) in Hempty.
  vm_compute in Hempty. discriminate Hempty.
Qed.

(** The text "math is fun and math is useful" for that context. *)
Lemma tfidf_relevance_below_ln_2_witness :
  let content := "math is fun and math is useful" in
  let context_data : gmap string string :=
    <["job_context" := "learn math"]> {["persona_role" := "Student"]} in
  let keywords :=
    _extract_context_keywords
      (default EmptyString (context_data !! "persona_role"))
      (default EmptyString (context_data !! "job_context")) in
  _compute_tfidf_relevance (VStr content) context_data
  = inr (Spec.tfidf_sum keywords content)
  /\ 0 <= Spec.tfidf_sum keywords content <= ln 2
  /\ ln 2 < 1.
Proof.
  intros content context_data keywords.
  exact (tfidf_relevance_below_ln_2 content context_data student_keywords).
Defined.

(** The text "history of art" for that context: no keyword occurs. *)
Lemma tfidf_relevance_zero_iff_witness :
  let content := "history of art" in
  let context_data : gmap string string :=
    <["job_context" := "learn math"]> {["persona_role" := "Student"]} in
  let keywords :=
    _extract_context_keywords
      (default EmptyString (context_data !! "persona_role"))
      (default EmptyString (context_data !! "job_context")) in
  let tokens := Text.split (Text.lower content) in
  exists relevance : R,
    _compute_tfidf_relevance (VStr content) context_data = inr relevance
    /\ (relevance = 0 <-> forall k : string, k ∈ keywords -> k ∉ tokens)
    /\ (0 < relevance <-> exists k : string, k ∈ keywords /\ k ∈ tokens)
    /\ _compute_tfidf_relevance (VStr content) ∅ = inr 0.5.
Proof.
  intros content context_data keywords tokens.
  exact (tfidf_relevance_zero_iff content context_data student_keywords).
Defined.

Lemma tfidf_relevance_lt_1 (content : string) (context_data : gmap string string) :
  exists semantic : R,
    _compute_tfidf_relevance (VStr content) context_data = inr semantic
    /\ 0 <= semantic < 1.
Proof.
  rewrite tfidf_relevance_text. eexists. split; [reflexivity|].
  destruct (decide _) as [_ | _]; [lra|].
  pose proof (tfidf_sum_nonneg
                (_extract_context_keywords
                   (default EmptyString (context_data !! "persona_role"))
                   (default EmptyString (context_data !! "job_context")))
                content) as H0.
  pose proof (tfidf_sum_le_ln_2
                (_extract_context_keywords
                   (default EmptyString (context_data !! "persona_role"))
                   (default EmptyString (context_data !! "job_context")))
                content) as H1.
  pose proof ln_2_lt_1. rewrite Rmin_left by lra. lra.
Qed.

(** The position weight, whatever the position item is. *)
Lemma position_weight_values (doc_section : gmap string value) (position : R) :
  _compute_position_weight doc_section = inr position ->
  position = 1.0 \/ position = 0.8 \/ position = 0.6.
Proof.
  unfold _compute_position_weight.
  destruct (default (VInt 0) (doc_section !! "position")) as [|p|r|s]; simpl;
    try discriminate.
  - destruct (p <? 3)%Z; simpl; [intros [= <-]; auto|].
    destruct (p <? 10)%Z; intros [= <-]; auto.
  - destruct (Rlt_dec r (IZR 3)); simpl; [intros [= <-]; auto|].
    destruct (Rlt_dec r (IZR 10)); intros [= <-]; auto.
Qed.

(** The final score of a section with a text, in terms of the position
    weight, which is the one sub-score that can raise. *)
Lemma final_score_text_cases (doc_section : gmap string value)
    (context_data : gmap string string) (content : string) :
  doc_section !! "content" = Some (VStr content) ->
  content <> EmptyString ->
  exists semantic : R,
    _compute_tfidf_relevance (VStr content) context_data = inr semantic
    /\ 0 <= semantic < 1
    /\ _compute_final_score doc_section context_data
       = match _compute_position_weight doc_section with
         | inl e => inl e
         | inr position =>
             inr (Rmin (0.6 * semantic
                        + 0.3 * length_bracket (Text.len (Text.split content))
                        + 0.1 * position) 1.0)
         end.
Proof.
  intros Hc Hne.
  destruct (tfidf_relevance_lt_1 content context_data) as (sem & Hsem & Hsr).
  exists sem. split; [exact Hsem|]. split; [exact Hsr|].
  unfold _compute_final_score, final_score_with. rewrite Hc. simpl default.
  rewrite (truthy_text content Hne). simpl negb. cbv iota.
  rewrite Hsem. simpl Res.bind.
  destruct (_compute_position_weight doc_section); reflexivity.
Qed.

(** X6. For a section whose content is a non-empty text and whose
    position is absent or an integer, the final score is the blend
    0.6 * semantic + 0.3 * length + 0.1 * position itself, at least 0.15
    and below 1: the minimum with 1.0 never takes effect, and a section
    with a text never scores 0. *)
Theorem final_score_unclamped (doc_section : gmap string value)
    (context_data : gmap string string) (content : string) :
  doc_section !! "content" = Some (VStr content) ->
  content <> EmptyString ->
  Spec.is_integer (doc_section !! "position") ->
  exists semantic length position : R,
    _compute_tfidf_relevance (VStr content) context_data = inr semantic
    /\ _assess_content_length (VStr content) = inr length
    /\ _compute_position_weight doc_section = inr position
    /\ _compute_final_score doc_section context_data
       = inr (0.6 * semantic + 0.3 * length + 0.1 * position)
    /\ 0.15 <= 0.6 * semantic + 0.3 * length + 0.1 * position < 1.
Proof.
  intros Hc Hne Hp.
  destruct (final_score_text_cases doc_section context_data content Hc Hne)
    as (sem & Hsem & Hsr & Hfinal).
  destruct (position_weight_range doc_section Hp) as (pos & Hpos & Hpr).
  pose proof (length_bracket_range (Text.len (Text.split content))) as Hlr.
  exists sem, (length_bracket (Text.len (Text.split content))), pos.
  split; [exact Hsem|]. split; [reflexivity|]. split; [exact Hpos|]. split.
  - rewrite Hfinal, Hpos. f_equal. apply Rmin_left. lra.
  - lra.
Qed.

(** The section of the worked example. *)
Lemma final_score_unclamped_witness :
  let doc_section : gmap string value :=
    <["position" := VInt 0]> {["content" := VStr "math is fun and math is useful"]} in
  let context_data : gmap string string :=
    <["job_context" := "learn math"]> {["persona_role" := "Student"]} in
  exists semantic length position : R,
    _compute_tfidf_relevance (VStr "math is fun and math is useful") context_data
    = inr semantic
    /\ _assess_content_length (VStr "math is fun and math is useful") = inr length
    /\ _compute_position_weight doc_section = inr position
    /\ _compute_final_score doc_section context_data
       = inr (0.6 * semantic + 0.3 * length + 0.1 * position)
    /\ 0.15 <= 0.6 * semantic + 0.3 * length + 0.1 * position < 1.
Proof.
  intros doc_section context_data.
  apply (final_score_unclamped doc_section context_data
           "math is fun and math is useful").
  - reflexivity.
  - discriminate.
  - exact I.
Defined.

End ScoreByItems.

(** ** Items of another type, and items that do not count *)

Section ItemTypes.

Local Open Scope R_scope.

(** X7. The position weight of a float position follows the same
    brackets as that of an integer position; a position that is [None] or
    a text raises [TypeError], where an absent position counts as 0. *)
Theorem position_weight_types (doc_section : gmap string value) :
  (forall r : R,
      doc_section !! "position" = Some (VFloat r) ->
      (r < 3 -> _compute_position_weight doc_section = inr 1.0)
      /\ (3 <= r < 10 -> _compute_position_weight doc_section = inr 0.8)
      /\ (10 <= r -> _compute_position_weight doc_section = inr 0.6))
  /\ (doc_section !! "position" = Some VNone ->
      _compute_position_weight doc_section = inl TypeError)
  /\ (forall s : string,
         doc_section !! "position" = Some (VStr s) ->
         _compute_position_weight doc_section = inl TypeError).
Proof.
  unfold _compute_position_weight. repeat apply conj.
  - intros r Hp. rewrite Hp. simpl. repeat apply conj; intros Hr.
    + destruct (Rlt_dec r 3); [reflexivity | lra].
    + destruct (Rlt_dec r 3); [lra|]. simpl.
      destruct (Rlt_dec r 10); [reflexivity | lra].
    + destruct (Rlt_dec r 3); [lra|]. simpl.
      destruct (Rlt_dec r 10); [lra | reflexivity].
  - intros Hp. rewrite Hp. reflexivity.
  - intros s Hp. rewrite Hp. reflexivity.
Qed.

(** Positions 2.5 and "first". *)
Lemma position_weight_types_witness :
  _compute_position_weight {["position" := VFloat 2.5]} = inr 1.0
  /\ _compute_position_weight {["position" := VStr "first"]} = inl TypeError.
Proof.
  split.
  - destruct (position_weight_types {["position" := VFloat 2.5]}) as [Hf _].
    apply (Hf 2.5); [reflexivity | lra].
  - destruct (position_weight_types {["position" := VStr "first"]}) as (_ & _ & Hs).
    apply (Hs "first"). reflexivity.
Defined.

Lemma final_score_no_text (doc_section : gmap string value)
    (context_data : gmap string string) (v : value) :
  doc_section !! "content" = Some v ->
  Py.truthy v = true ->
  (forall s : string, v <> VStr s) ->
  _compute_final_score doc_section context_data = inl AttributeError.
Proof.
  intros Hc Ht Hv. unfold _compute_final_score, final_score_with.
  rewrite Hc. simpl default. rewrite Ht. simpl negb. cbv iota.
  unfold _compute_tfidf_relevance.
  destruct v as [|z|r|s]; [discriminate Ht| | |exfalso; apply (Hv s); reflexivity];
    destruct (decide _); reflexivity.
Qed.

(** X8. A content that is true as a condition without being a text, such
    as a number other than 0, makes the final score raise
    [AttributeError], for every context and position; a non-empty text
    with a position that is [None] or a text makes it raise [TypeError]. *)
Theorem final_score_raises (doc_section : gmap string value)
    (context_data : gmap string string) :
  (forall v : value,
      doc_section !! "content" = Some v ->
      Py.truthy v = true ->
      (forall s : string, v <> VStr s) ->
      _compute_final_score doc_section context_data = inl AttributeError)
  /\ (forall (content : string) (p : value),
         doc_section !! "content" = Some (VStr content) ->
         content <> EmptyString ->
         doc_section !! "position" = Some p ->
         p = VNone \/ (exists s : string, p = VStr s) ->
         _compute_final_score doc_section context_data = inl TypeError).
Proof.
  split.
  - intros v. apply final_score_no_text.
  - intros content p Hc Hne Hp Hbad.
    destruct (final_score_text_cases doc_section context_data content Hc Hne)
      as (sem & _ & _ & ->).
    unfold _compute_position_weight. rewrite Hp.
    destruct Hbad as [-> | [s ->]]; reflexivity.
Qed.

(** A content 42, and a text at position "first". *)
Lemma final_score_raises_witness :
  _compute_final_score {["content" := VInt 42]} ∅ = inl AttributeError
  /\ _compute_final_score
       (<["position" := VStr "first"]> {["content" := VStr "math"]}) ∅
     = inl TypeError.
Proof.
  split.
  - destruct (final_score_raises {["content" := VInt 42]} ∅) as [Ha _].
    apply (Ha (VInt 42)); [reflexivity | reflexivity | discriminate].
  - destruct (final_score_raises
                (<["position" := VStr "first"]> {["content" := VStr "math"]}) ∅)
      as [_ Ht].
    apply (Ht "math" (VStr "first")); [reflexivity | discriminate | reflexivity|].
    right. exists "first". reflexivity.
Defined.

(** X9. When the final score of a section is computed, it is 0 exactly
    when the content of the section is false as a condition (absent,
    empty, [None], 0 or 0.0), and it is at least 0.15 otherwise. *)
Theorem final_score_zero_iff (doc_section : gmap string value)
    (context_data : gmap string string) (score : R) :
  _compute_final_score doc_section context_data = inr score ->
  (score = 0
   <-> Py.truthy (default (VStr EmptyString) (doc_section !! "content")) = false)
  /\ (score <> 0 -> 0.15 <= score).
Proof.
  intros Hs.
  destruct (Py.truthy (default (VStr EmptyString) (doc_section !! "content")))
    eqn:Ht.
  - assert (Hlow : 0.15 <= score).
    { destruct (doc_section !! "content") as [v|] eqn:Hc; [|discriminate Ht].
      simpl in Ht. destruct v as [|z|r|content].
      - discriminate Ht.
      - rewrite (final_score_no_text _ context_data _ Hc Ht) in Hs
          by discriminate. discriminate Hs.
      - rewrite (final_score_no_text _ context_data _ Hc Ht) in Hs
          by discriminate. discriminate Hs.
      - assert (Hne : content <> EmptyString) by (destruct content; [discriminate Ht | discriminate]).
        destruct (final_score_text_cases doc_section context_data content Hc Hne)
          as (sem & _ & Hsr & Hfinal).
        rewrite Hfinal in Hs.
        destruct (_compute_position_weight doc_section) as [e|pos] eqn:Hpos;
          [discriminate Hs|].
        injection Hs as <-.
        pose proof (length_bracket_range (Text.len (Text.split content))).
        destruct (position_weight_values _ _ Hpos) as [-> | [-> | ->]];
          rewrite Rmin_left by lra; lra. }
    split; [split; [lra | discriminate] | intros _; exact Hlow].
  - assert (Hz : score = 0).
    { unfold _compute_final_score, final_score_with in Hs. rewrite Ht in Hs.
      simpl in Hs. injection Hs as <-. lra. }
    split; [split; [reflexivity | exact (fun _ => Hz)] | intros Hn; contradiction].
Qed.

(** A section whose content is [None]. *)
Lemma final_score_zero_iff_witness :
  (0.0 = 0
   <-> Py.truthy (default (VStr EmptyString)
                    (({["content" := VNone]} : gmap string value) !! "content"))
       = false)
  /\ (0.0 <> 0 -> 0.15 <= 0.0).
Proof.
  apply (final_score_zero_iff {["content" := VNone]} ∅ 0.0). reflexivity.
Defined.

Lemma final_score_items (d d' : gmap string value)
    (context_data : gmap string string) :
  d !! "content" = d' !! "content" ->
  d !! "position" = d' !! "position" ->
  _compute_final_score d context_data = _compute_final_score d' context_data.
Proof.
  intros Hc Hp. unfold _compute_final_score, final_score_with.
  rewrite Hc. unfold _compute_position_weight. rewrite Hp. reflexivity.
Qed.

(** X10. The final score of a section depends on its content and its
    position only: two sections that agree on these two items have the
    same final score, or raise the same exception, whatever their other
    items are; so the record made from a section in a ranking scores as
    the section does. *)
Theorem final_score_other_items (d d' : gmap string value)
    (context_data : gmap string string) :
  d !! "content" = d' !! "content" ->
  d !! "position" = d' !! "position" ->
  _compute_final_score d context_data = _compute_final_score d' context_data
  /\ forall score : R,
      _compute_final_score (Spec.ranked_section score d) context_data
      = _compute_final_score d context_data.
Proof.
  intros Hc Hp. split; [apply final_score_items; assumption|].
  intros score. apply final_score_items;
    apply ranked_section_other; discriminate.
Qed.

(** A section with and without a title. *)
Lemma final_score_other_items_witness :
  _compute_final_score
    (<["title" := VStr "Notes"]> {["content" := VStr "math is fun"]}) ∅
  = _compute_final_score {["content" := VStr "math is fun"]} ∅.
Proof.
  apply (final_score_other_items
           (<["title" := VStr "Notes"]> {["content" := VStr "math is fun"]})
           {["content" := VStr "math is fun"]} ∅); reflexivity.
Defined.

End ItemTypes.

(** ** Upper and lower case *)

Section LetterCase.

Lemma tfidf_relevance_lower (content : string) (context_data : gmap string string) :
  _compute_tfidf_relevance (VStr (Text.lower content)) context_data
  = _compute_tfidf_relevance (VStr content) context_data.
Proof.
  rewrite !tfidf_relevance_text. unfold Spec.tfidf_sum.
  rewrite lower_idem. reflexivity.
Qed.

(** The number of words does not change with the case: the count that the
    relevance divides by is the count that the length weight looks at. *)
Lemma word_count_lower (content : string) :
  Text.len (Text.split (Text.lower content)) = Text.len (Text.split content).
Proof. rewrite split_lower. unfold Text.len. rewrite length_map. reflexivity. Qed.

Lemma content_length_lower (content : string) :
  _assess_content_length (VStr (Text.lower content))
  = _assess_content_length (VStr content).
Proof.
  unfold _assess_content_length. simpl. rewrite word_count_lower. reflexivity.
Qed.

Lemma final_score_lower (doc_section : gmap string value)
    (context_data : gmap string string) (content : string) :
  _compute_final_score (<["content" := VStr (Text.lower content)]> doc_section)
    context_data
  = _compute_final_score (<["content" := VStr content]> doc_section) context_data.
Proof.
  unfold _compute_final_score, final_score_with.
  rewrite !lookup_insert_eq. simpl default.
  assert (Ht : Py.truthy (VStr (Text.lower content)) = Py.truthy (VStr content))
    by (destruct content; reflexivity).
  rewrite Ht. destruct (Py.truthy (VStr content)); [|reflexivity]. simpl negb. cbv iota.
  rewrite tfidf_relevance_lower, content_length_lower.
  unfold _compute_position_weight.
  rewrite !lookup_insert_ne by discriminate. reflexivity.
Qed.

Lemma tfidf_relevance_context_lower (text_content : value)
    (user_persona job_details : gmap string string) (role task : string) :
  _compute_tfidf_relevance text_content
    (_build_persona_context (<["role" := Text.lower role]> user_persona)
       (<["task" := Text.lower task]> job_details))
  = _compute_tfidf_relevance text_content
      (_build_persona_context (<["role" := role]> user_persona)
         (<["task" := task]> job_details)).
Proof.
  unfold _compute_tfidf_relevance, _build_persona_context.
  rewrite !lookup_insert_eq. simpl default.
  rewrite !(lookup_insert_ne _ "job_context" "persona_role") by discriminate.
  rewrite !lookup_insert_eq. simpl default.
  rewrite keywords_lower. reflexivity.
Qed.

(** X11. Scoring does not look at the case of letters: lower-casing the
    content of a section leaves its final score as it is, and lower-casing
    the role of the persona and the task of the job leaves the relevance
    of every content as it is; the word count that the relevance divides
    by is the word count that the length weight is read from. *)
Theorem scoring_ignores_case :
  (forall (doc_section : gmap string value) (context_data : gmap string string)
          (content : string),
      _compute_final_score (<["content" := VStr (Text.lower content)]> doc_section)
        context_data
      = _compute_final_score (<["content" := VStr content]> doc_section)
          context_data)
  /\ (forall (text_content : value) (user_persona job_details : gmap string string)
             (role task : string),
         _compute_tfidf_relevance text_content
           (_build_persona_context (<["role" := Text.lower role]> user_persona)
              (<["task" := Text.lower task]> job_details))
         = _compute_tfidf_relevance text_content
             (_build_persona_context (<["role" := role]> user_persona)
                (<["task" := task]> job_details)))
  /\ (forall content : string,
         Text.len (Text.split (Text.lower content))
         = Text.len (Text.split content)).
Proof.
  split; [exact final_score_lower|].
  split; [exact tfidf_relevance_context_lower | exact word_count_lower].
Qed.

End LetterCase.

(** * Further properties of the ranking *)

Section RankingCalls.

Local Open Scope nat_scope.

(** X1, at the keyword "math" of a student who has to learn math. *)
Lemma keywords_membership_witness :
  "math" ∈ _extract_context_keywords "Student" "learn math"
  /\ _extract_context_keywords "Student" "learn math"
     = _extract_context_keywords "learn math" "Student".
Proof.
  destruct (keywords_membership "Student" "learn math") as [Hin Hswap].
  split; [|exact Hswap].
  apply Hin. split; [reflexivity|]. right.
  apply (bool_decide_eq_true_1 _). vm_compute. reflexivity.
Defined.

(** X12. A ranking call reads the persona through its role and the job
    through its task only, an absent role or task counting as the empty
    text: personas and jobs that agree there give the same result and
    leave the same store. *)
Theorem rank_sections_role_task (doc_sections : list Store.ref)
    (user_persona user_persona' job_details job_details' : gmap string string)
    (h : Store.heap) :
  default EmptyString (user_persona !! "role")
  = default EmptyString (user_persona' !! "role") ->
  default EmptyString (job_details !! "task")
  = default EmptyString (job_details' !! "task") ->
  Ranking.run (Ranking.rank_sections doc_sections user_persona job_details) h
  = Ranking.run (Ranking.rank_sections doc_sections user_persona' job_details') h.
Proof.
  intros Hr Ht. unfold Ranking.run, Ranking.rank_sections, _build_persona_context.
  rewrite Hr, Ht. reflexivity.
Qed.

(** A persona with a name and without a role, against an empty role. *)
Lemma rank_sections_role_task_witness :
  Ranking.run (Ranking.rank_sections [0] {["name" := "Ada"]} {["task" := "learn"]})
    [{["content" := VStr "math"]}]
  = Ranking.run (Ranking.rank_sections [0] {["role" := ""]}
                   (<["due" := "today"]> {["task" := "learn"]}))
      [{["content" := VStr "math"]}].
Proof.
  apply (rank_sections_role_task [0] {["name" := "Ada"]} {["role" := ""]}
           {["task" := "learn"]} (<["due" := "today"]> {["task" := "learn"]}));
    reflexivity.
Defined.




(** X14. The references that a ranking call returns are pairwise
    different and denote new objects, placed after the objects that the
    store held before the call: one new object for every reference of the
    input list, also when the list names the same section twice. *)
Theorem rank_sections_new_objects (h : Store.heap) (doc_sections : list Store.ref)
    (user_persona job_details : gmap string string) :
  Spec.valid_input h doc_sections ->
  exists (out : list Store.ref) (h' : Store.heap),
    Ranking.run (Ranking.rank_sections doc_sections user_persona job_details) h
    = (inr out, h')
    /\ length out = length doc_sections
    /\ length h' = length h + length doc_sections
    /\ NoDup out
    /\ forall y : Store.ref, y ∈ out -> length h <= y < length h'.
Proof.
  intros Hv.
  destruct (rank_sections_run h doc_sections user_persona job_details Hv)
    as (sds & Hsds & Hrun).
  pose proof (Forall2_length _ _ _ Hsds) as Hlen.
  eexists _, _. split; [exact Hrun|].
  assert (Hperm : map snd (ListSort.sort_reverse
                             (zip (map fst sds)
                                  (seq (length h) (length doc_sections))))
                  ≡ₚ seq (length h) (length doc_sections)).
  { rewrite (sort_reverse_perm _).
    apply eq_subrelation; [typeclasses eauto|].
    apply snd_zip. rewrite length_map, length_seq. lia. }
  split; [rewrite Hperm; apply length_seq|].
  split; [rewrite length_app, length_map; lia|].
  split; [rewrite Hperm; apply NoDup_seq|].
  intros y Hy. rewrite Hperm in Hy. apply elem_of_seq in Hy.
  rewrite length_app, length_map. lia.
Qed.

(** The same section, named twice. *)
Lemma rank_sections_new_objects_witness :
  exists (out : list Store.ref) (h' : Store.heap),
    Ranking.run (Ranking.rank_sections [0; 0] ∅ ∅) [{["content" := VStr "math"]}]
    = (inr out, h')
    /\ length out = length [0; 0]
    /\ length h' = length [({["content" := VStr "math"]} : gmap string value)]
                   + length [0; 0]
    /\ NoDup out
    /\ forall y : Store.ref,
        y ∈ out ->
        length [({["content" := VStr "math"]} : gmap string value)] <= y < length h'.
Proof.
  apply (rank_sections_new_objects [{["content" := VStr "math"]}] [0; 0] ∅ ∅).
  repeat constructor; eexists; (split; [reflexivity | split; exact I]).
Defined.

End RankingCalls.

(** ** The order of a ranking *)

Section RankingAgain.

Local Open Scope nat_scope.

Lemma relevance_score_lookup (h : Store.heap) (y : Store.ref)
    (d : gmap string value) :
  h !! y = Some d -> Spec.relevance_score h y = d !! "relevance_score".
Proof. intros Hy. unfold Spec.relevance_score. rewrite Hy. reflexivity. Qed.

Lemma has_text_score (d : gmap string value) (context_data : gmap string string)
    (s : R) :
  Spec.has_text d -> Spec.is_section d ->
  _compute_final_score d context_data = inr s -> (0.15 <= s)%R.
Proof.
  intros (content & Hc & Hne) [_ Hp] Hs.
  destruct (final_score_text_cases d context_data content Hc Hne)
    as (sem & _ & Hsr & Hfinal).
  destruct (position_weight_range d Hp) as (pos & Hpos & Hpr).
  rewrite Hfinal, Hpos in Hs. injection Hs as <-.
  pose proof (length_bracket_range (Text.len (Text.split content))).
  rewrite Rmin_left by lra. lra.
Qed.

(** X15. In the result of a ranking call, the record of a section with a
    non-empty text comes before the record of a section whose content is
    absent or empty, wherever the two sections are in the input list. *)
Theorem rank_sections_text_first (h : Store.heap) (doc_sections : list Store.ref)
    (user_persona job_details : gmap string string)
    (i k : nat) (xi xk : Store.ref) (di dk : gmap string value) :
  Spec.valid_input h doc_sections ->
  doc_sections !! i = Some xi -> h !! xi = Some di -> Spec.has_text di ->
  doc_sections !! k = Some xk -> h !! xk = Some dk ->
  dk !! "content" = None \/ dk !! "content" = Some (VStr "") ->
  exists (out : list Store.ref) (h' : Store.heap) (a b : nat),
    Ranking.run (Ranking.rank_sections doc_sections user_persona job_details) h
    = (inr out, h')
    /\ out !! a = Some (length h + i)
    /\ out !! b = Some (length h + k)
    /\ a < b.
Proof.
  intros Hv Hi Hdi Htext Hk Hdk Hnone.
  destruct (rank_sections_outcome h doc_sections user_persona job_details Hv)
    as (out & h' & Hrun & Hperm & Hcopy & Hord).
  assert (Hin : forall n : nat, n < length doc_sections ->
                                exists a, out !! a = Some (length h + n)).
  { intros n Hn. apply list_elem_of_lookup_1. rewrite Hperm.
    apply elem_of_seq. lia. }
  destruct (Hin i (lookup_lt_Some _ _ _ Hi)) as [a Ha].
  destruct (Hin k (lookup_lt_Some _ _ _ Hk)) as [b Hb].
  exists out, h', a, b. split; [exact Hrun|]. split; [exact Ha|].
  split; [exact Hb|].
  destruct (Hcopy i xi Hi) as (di' & si & Hdi' & Hsi & Hri).
  destruct (Hcopy k xk Hk) as (dk' & sk & Hdk' & Hsk & Hrk).
  rewrite Hdi in Hdi'. injection Hdi' as <-.
  rewrite Hdk in Hdk'. injection Hdk' as <-.
  assert (Hseci : Spec.is_section di).
  { unfold Spec.valid_input in Hv. rewrite Forall_forall in Hv.
    destruct (Hv xi (list_elem_of_lookup_2 _ _ _ Hi)) as (d0 & Hd0 & Hsec).
    rewrite Hdi in Hd0. injection Hd0 as <-. exact Hsec. }
  pose proof (has_text_score di _ si Htext Hseci Hsi) as Hlow.
  assert (Hzero : sk = 0%R).
  { rewrite (final_score_with_no_content _compute_tfidf_relevance
               _assess_content_length _compute_position_weight dk _ Hnone) in Hsk.
    injection Hsk as <-. lra. }
  destruct (lt_eq_lt_dec a b) as [[Hlt | Heq] | Hgt]; [exact Hlt| |].
  - exfalso. subst b. rewrite Ha in Hb. injection Hb as Hik.
    assert (i = k) by lia. subst k.
    rewrite Hri in Hrk. injection Hrk as Hrec.
    apply (f_equal (fun m : gmap string value => m !! "relevance_score")) in Hrec.
    rewrite (proj1 (ranked_section_scores si di)) in Hrec.
    rewrite (proj1 (ranked_section_scores sk dk)) in Hrec.
    injection Hrec as Hs. lra.
  - exfalso.
    destruct (Hord b a _ _ Hgt Hb Ha) as (sb & sa & Hsb & Hsa & Hle & _).
    rewrite (relevance_score_lookup _ _ _ Hrk) in Hsb.
    rewrite (relevance_score_lookup _ _ _ Hri) in Hsa.
    rewrite (proj1 (ranked_section_scores sk dk)) in Hsb.
    rewrite (proj1 (ranked_section_scores si di)) in Hsa.
    injection Hsb as <-. injection Hsa as <-. lra.
Qed.

(** A section without content before a section with a text. *)
Lemma rank_sections_text_first_witness :
  exists (out : list Store.ref) (h' : Store.heap) (a b : nat),
    Ranking.run (Ranking.rank_sections [0; 1] ∅ ∅)
      [{["content" := VStr ""]}; {["content" := VStr "math"]}]
    = (inr out, h')
    /\ out !! a
       = Some (length [({["content" := VStr ""]} : gmap string value);
                       {["content" := VStr "math"]}] + 1)
    /\ out !! b
       = Some (length [({["content" := VStr ""]} : gmap string value);
                       {["content" := VStr "math"]}] + 0)
    /\ a < b.
Proof.
  apply (rank_sections_text_first
           [{["content" := VStr ""]}; {["content" := VStr "math"]}] [0; 1] ∅ ∅
           1 0 1 0 {["content" := VStr "math"]} {["content" := VStr ""]}).
  - repeat constructor; eexists; (split; [reflexivity | split; exact I]).
  - reflexivity.
  - reflexivity.
  - exists "math". split; [reflexivity | discriminate].
  - reflexivity.
  - reflexivity.
  - right. reflexivity.
Defined.

End RankingAgain.

(** ** Ranking a ranked list *)

Section RankedTwice.

Local Open Scope nat_scope.

Lemma StronglySorted_of_lookup {A} (Rel : A -> A -> Prop) (l : list A) :
  (forall (a b : nat) (x y : A),
      a < b -> l !! a = Some x -> l !! b = Some y -> Rel x y) ->
  StronglySorted Rel l.
Proof.
  induction l as [|z l IH]; intros Hl; constructor.
  - apply IH. intros a b x y Hab Ha Hb. apply (Hl (S a) (S b)); [lia | exact Ha | exact Hb].
  - apply Forall_forall. intros y Hy.
    apply list_elem_of_lookup_1 in Hy as [b Hb].
    apply (Hl 0 (S b)); [lia | reflexivity | exact Hb].
Qed.

(** Sorting a list that is in ranking order gives the list itself. *)
Lemma sort_reverse_sorted_id (l : list (R * nat)) :
  StronglySorted (λ a b, snd a < snd b) l ->
  StronglySorted Spec.ranked_before l ->
  ListSort.sort_reverse l = l.
Proof.
  intros Htags Hl.
  apply (StronglySorted_unique_strong Spec.ranked_before).
  - intros x y _ _ Hxy Hyx. unfold Spec.ranked_before in Hxy, Hyx.
    exfalso. destruct Hxy as [? | [? ?]], Hyx as [? | [? ?]]; try lra; lia.
  - apply sort_reverse_sorted. exact Htags.
  - exact Hl.
  - apply sort_reverse_perm.
Qed.

Lemma ranked_section_is_section (s : R) (d : gmap string value) :
  Spec.is_section d -> Spec.is_section (Spec.ranked_section s d).
Proof.
  intros Hd. unfold Spec.is_section.
  rewrite !ranked_section_other by discriminate. exact Hd.
Qed.

(** The records of a ranking, one by one. *)
Lemma rank_sections_records (h : Store.heap) (doc_sections : list Store.ref)
    (user_persona job_details : gmap string string) :
  Spec.valid_input h doc_sections ->
  exists (out : list Store.ref) (h' : Store.heap),
    Ranking.run (Ranking.rank_sections doc_sections user_persona job_details) h
    = (inr out, h')
    /\ (forall y : Store.ref,
           y ∈ out ->
           exists (d : gmap string value) (s : R),
             h' !! y = Some (Spec.ranked_section s d)
             /\ Spec.is_section d
             /\ _compute_final_score d
                  (_build_persona_context user_persona job_details) = inr s)
    /\ (forall (a b : nat) (ya yb : Store.ref),
           a < b -> out !! a = Some ya -> out !! b = Some yb ->
           exists sa sb : R,
             Spec.relevance_score h' ya = Some (VFloat sa)
             /\ Spec.relevance_score h' yb = Some (VFloat sb)
             /\ (sb <= sa)%R).
Proof.
  intros Hv.
  destruct (rank_sections_outcome h doc_sections user_persona job_details Hv)
    as (out & h' & Hrun & Hperm & Hcopy & Hord).
  exists out, h'. split; [exact Hrun|]. split.
  - intros y Hy. rewrite Hperm in Hy. apply elem_of_seq in Hy.
    destruct (lookup_lt_is_Some_2 doc_sections (y - length h) ltac:(lia)) as [x Hx].
    destruct (Hcopy _ x Hx) as (d & s & Hd & Hs & Hr).
    replace (length h + (y - length h)) with y in Hr by lia.
    exists d, s. split; [exact Hr|]. split; [|exact Hs].
    unfold Spec.valid_input in Hv. rewrite Forall_forall in Hv.
    destruct (Hv x (list_elem_of_lookup_2 _ _ _ Hx)) as (d0 & Hd0 & Hsec).
    rewrite Hd in Hd0. injection Hd0 as <-. exact Hsec.
  - intros a b ya yb Hab Ha Hb.
    destruct (Hord a b ya yb Hab Ha Hb) as (sa & sb & Hsa & Hsb & Hle & _).
    exists sa, sb. repeat split; assumption.
Qed.

(** X16. Ranking the result of a ranking call again, for the same persona
    and job, keeps the order: the copy of the record at place [k] is at
    place [k] of the new result, and it has the score of that record. *)
Theorem rank_sections_again (h : Store.heap) (doc_sections : list Store.ref)
    (user_persona job_details : gmap string string) :
  Spec.valid_input h doc_sections ->
  exists (out : list Store.ref) (h' h'' : Store.heap),
    Ranking.run (Ranking.rank_sections doc_sections user_persona job_details) h
    = (inr out, h')
    /\ Ranking.run (Ranking.rank_sections out user_persona job_details) h'
       = (inr (seq (length h') (length out)), h'')
    /\ forall (k : nat) (y : Store.ref),
        out !! k = Some y ->
        exists s : R,
          Spec.relevance_score h' y = Some (VFloat s)
          /\ Spec.relevance_score h'' (length h' + k) = Some (VFloat s).
Proof.
  intros Hv.
  destruct (rank_sections_records h doc_sections user_persona job_details Hv)
    as (out & h' & Hrun & Hrec & Hord).
  assert (Hv' : Spec.valid_input h' out).
  { apply Forall_forall. intros y Hy.
    destruct (Hrec y Hy) as (d & s & Hy' & Hsec & _).
    eexists. split; [exact Hy'|]. apply ranked_section_is_section. exact Hsec. }
  destruct (rank_sections_run h' out user_persona job_details Hv')
    as (sds & Hsds & Hrun').
  pose proof (Forall2_length _ _ _ Hsds) as Hlen.
  (* the score of the copy is the score of the record *)
  assert (Hscore : forall k y, out !! k = Some y ->
            exists s sd, sds !! k = Some sd /\ sd.1 = s
                         /\ Spec.relevance_score h' y = Some (VFloat s)).
  { intros k y Hk.
    destruct (Forall2_lookup_l _ _ _ _ _ Hsds Hk) as (sd & Hsd & Hy & Hs).
    destruct (Hrec y (list_elem_of_lookup_2 _ _ _ Hk)) as (d & s & Hy' & _ & Hsc).
    rewrite Hy' in Hy. injection Hy as Hd.
    exists s, sd. split; [exact Hsd|]. split.
    - rewrite <- Hd in Hs.
      rewrite (final_score_items (Spec.ranked_section s d) d) in Hs
        by (apply ranked_section_other; discriminate).
      rewrite Hsc in Hs. injection Hs as ->. reflexivity.
    - rewrite (relevance_score_lookup _ _ _ Hy'). apply ranked_section_scores. }
  set (kl := zip (map fst sds) (seq (length h') (length out))) in *.
  assert (Hkl : forall a x, kl !! a = Some x ->
            exists y, out !! a = Some y /\ snd x = length h' + a
                      /\ Spec.relevance_score h' y = Some (VFloat (fst x))).
  { intros a [s n] Ha. apply lookup_zip_with_Some in Ha as (s' & n' & Heq & Hs & Hn).
    injection Heq as -> ->. apply lookup_seq in Hn as [-> Ha].
    destruct (lookup_lt_is_Some_2 out a Ha) as [y Hy].
    destruct (Hscore a y Hy) as (s & sd & Hsd & Hfst & Hrel).
    rewrite list_lookup_fmap, Hsd in Hs. simpl in Hs. injection Hs as <-.
    exists y. split; [exact Hy|]. split; [reflexivity|]. simpl. rewrite Hfst. exact Hrel. }
  assert (Hsorted : StronglySorted Spec.ranked_before kl).
  { apply StronglySorted_of_lookup. intros a b x y Hab Ha Hb.
    destruct (Hkl a x Ha) as (ya & Hya & Hta & Hra).
    destruct (Hkl b y Hb) as (yb & Hyb & Htb & Hrb).
    destruct (Hord a b ya yb Hab Hya Hyb) as (sa & sb & Hsa & Hsb & Hle).
    rewrite Hra in Hsa. injection Hsa as <-.
    rewrite Hrb in Hsb. injection Hsb as <-.
    unfold Spec.ranked_before.
    destruct (Rle_lt_or_eq_dec _ _ Hle) as [Hlt | Heq];
      [left; exact Hlt | right; split; [symmetry; exact Heq | lia]]. }
  rewrite (sort_reverse_sorted_id kl (zip_seq_sorted _ _ _) Hsorted) in Hrun'.
  unfold kl in Hrun'.
  change (map snd (zip (map fst sds) (seq (length h') (length out))))
    with ((zip (map fst sds) (seq (length h') (length out))).*2) in Hrun'.
  rewrite snd_zip in Hrun' by (rewrite length_map, length_seq; lia).
  eexists out, h', _. split; [exact Hrun|]. split; [exact Hrun'|].
  intros k y Hk. destruct (Hscore k y Hk) as (s & sd & Hsd & Hfst & Hrel).
  exists s. split; [exact Hrel|].
  apply (Forall2_lookup_lr _ _ _ k _ _ (copies_relevance h' sds)).
  - apply lookup_seq. split; [reflexivity|]. rewrite <- Hlen.
    exact (lookup_lt_Some _ _ _ Hk).
  - rewrite list_lookup_fmap, Hsd. simpl. rewrite Hfst. reflexivity.
Qed.

(** Two sections, ranked twice for a student who has to learn math. *)
Lemma rank_sections_again_witness :
  let h : Store.heap :=
    [ {["content" := VStr ""]}; {["content" := VStr "math is fun"]} ] in
  let user_persona : gmap string string := {["role" := "Student"]} in
  let job_details : gmap string string := {["task" := "learn math"]} in
  exists (out : list Store.ref) (h' h'' : Store.heap),
    Ranking.run (Ranking.rank_sections [0; 1] user_persona job_details) h
    = (inr out, h')
    /\ Ranking.run (Ranking.rank_sections out user_persona job_details) h'
       = (inr (seq (length h') (length out)), h'')
    /\ forall (k : nat) (y : Store.ref),
        out !! k = Some y ->
        exists s : R,
          Spec.relevance_score h' y = Some (VFloat s)
          /\ Spec.relevance_score h'' (length h' + k) = Some (VFloat s).
Proof.
  intros h user_persona job_details.
  apply (rank_sections_again h [0; 1] user_persona job_details).
  repeat constructor; eexists; (split; [reflexivity | split; exact I]).
Defined.

End RankedTwice.

(** ** The keyword sum on any table and total *)

Section KeywordSumAlone.

Local Open Scope R_scope.





End KeywordSumAlone.
